(** * The item store and its HTTP layer (main.go)

    A shallow embedding of [MemoryStore], its five operations, and the
    request handlers and routing of [main], followed by the properties
    the specification states about them.

    Conventions of the embedding.
    - Go's [int] is the 64-bit two's-complement integer of the build
      (golang on a 64-bit target): a [Z] kept in range by [wrap64].
      The only arithmetic of the program is [s.nextID++].
    - [map[int]Item] is a [gmap Z Item].
    - A method with a pointer receiver becomes a function of the store
      that returns its result together with the store it leaves behind.
      The mutex makes each operation atomic; operations are therefore
      modelled as single steps and interleavings as sequences of steps.
    - [error] values are the type [error]; [Ok]/[Err] play the part of
      the [(value, error)] pairs of the source. *)

From Stdlib Require Import ZArith String Ascii List Lia Sorted DecimalString.
From Stdlib Require DecimalPos.
From stdpp Require Import base gmap list fin_maps.

Local Open Scope Z_scope.

(** ** Machine integers *)

Definition max_int : Z := 9223372036854775807.
Definition min_int : Z := -9223372036854775808.

(** Two's-complement wrap-around of a 64-bit signed integer. *)
Definition wrap64 (z : Z) : Z := (z - min_int) mod 18446744073709551616 + min_int.

Definition in_int (z : Z) : Prop := min_int <= z <= max_int.

(** ** Data model *)

Record Item := mkItem { ID : Z; Name : string; Value : Z }.

Record MemoryStore := mkStore { items : gmap Z Item; nextID : Z }.

(** [fmt.Errorf("item with id %d not found", id)]: the only error the
    store produces.  [Error] renders it the way [err.Error()] does. *)
Inductive error := NotFound (id : Z).

Inductive result (A : Type) :=
| Ok (a : A)
| Err (e : error).
Arguments Ok {A} a.
Arguments Err {A} e.

(** [%d] of a Go int. *)
Definition format_int (z : Z) : string :=
  match z with
  | Z0 => "0"%string
  | Zpos p => DecimalString.NilEmpty.string_of_uint (Pos.to_uint p)
  | Zneg p => String "-" (DecimalString.NilEmpty.string_of_uint (Pos.to_uint p))
  end.

Definition Error (e : error) : string :=
  match e with
  | NotFound id => ("item with id " ++ format_int id ++ " not found")%string
  end.

(** ** Store operations *)

Definition NewMemoryStore : MemoryStore :=
  {| items := ∅; nextID := 1 |}.

Definition GetItem (s : MemoryStore) (id : Z) : result Item * MemoryStore :=
  match items s !! id with
  | None => (Err (NotFound id), s)
  | Some item => (Ok item, s)
  end.

Definition AddItem (s : MemoryStore) (item : Item) : result Z * MemoryStore :=
  let newItem := {| ID := nextID s; Name := Name item; Value := Value item |} in
  (Ok (ID newItem),
   {| items := <[nextID s := newItem]> (items s);
      nextID := wrap64 (nextID s + 1) |}).

Definition UpdateItem (s : MemoryStore) (id : Z) (item : Item)
  : result unit * MemoryStore :=
  match items s !! id with
  | None => (Err (NotFound id), s)
  | Some _ =>
      let item := {| ID := id; Name := Name item; Value := Value item |} in
      (Ok tt, {| items := <[id := item]> (items s); nextID := nextID s |})
  end.

Definition DeleteItem (s : MemoryStore) (id : Z) : result unit * MemoryStore :=
  match items s !! id with
  | None => (Err (NotFound id), s)
  | Some _ => (Ok tt, {| items := delete id (items s); nextID := nextID s |})
  end.

(** [for _, item := range s.items { items = append(items, item) }].
    Go leaves the iteration order of a map open; the sequence [visit]
    of entries the loop is handed is an input of the model. *)
Definition GetItems_loop (visit : list (Z * Item)) : list Item :=
  fold_left (fun acc kv => acc ++ [snd kv]) visit [].

(** ** Sequences of store operations

    The writers of the store.  A sequence of operations stands for the
    requests the server has processed so far, in the order in which
    they took the write lock. *)

Inductive Op :=
| OpAdd (item : Item)
| OpUpdate (id : Z) (item : Item)
| OpDelete (id : Z).

Definition step (s : MemoryStore) (op : Op) : MemoryStore :=
  match op with
  | OpAdd item => snd (AddItem s item)
  | OpUpdate id item => snd (UpdateItem s id item)
  | OpDelete id => snd (DeleteItem s id)
  end.

Definition run (s : MemoryStore) (ops : list Op) : MemoryStore :=
  fold_left step ops s.

(** The ids returned by the [AddItem] calls of a sequence, oldest first. *)
Fixpoint assigned (s : MemoryStore) (ops : list Op) : list Z :=
  match ops with
  | [] => []
  | op :: ops' =>
      match op with
      | OpAdd item =>
          match fst (AddItem s item) with
          | Ok id => id :: assigned (step s op) ops'
          | Err _ => assigned (step s op) ops'
          end
      | _ => assigned (step s op) ops'
      end
  end.

(** How many [AddItem] calls a sequence makes. *)
Fixpoint adds (ops : list Op) : nat :=
  match ops with
  | [] => O
  | OpAdd _ :: ops' => S (adds ops')
  | _ :: ops' => adds ops'
  end.

(** The store invariants the specification names. *)
Definition keyed_by_id (s : MemoryStore) : Prop :=
  forall k item, items s !! k = Some item -> ID item = k.

Definition reachable (s : MemoryStore) : Prop :=
  exists ops, run NewMemoryStore ops = s.

(** An item to add when only the counter matters. *)
Definition probe : Item := {| ID := 0; Name := "a"; Value := 0 |}.

(** ** strconv.Atoi

    The standard library's parser, as far as the handlers observe it: an
    optional sign, at least one decimal digit and nothing else, and a
    value that fits the 64-bit [int]; [None] stands for any error. *)

Definition is_digit (c : ascii) : bool :=
  let n := Z.of_nat (nat_of_ascii c) in (48 <=? n) && (n <=? 57).

Definition digit_val (c : ascii) : Z := Z.of_nat (nat_of_ascii c) - 48.

Fixpoint parse_digits (acc : Z) (s : string) : option Z :=
  match s with
  | EmptyString => Some acc
  | String c s' =>
      if is_digit c then parse_digits (10 * acc + digit_val c) s' else None
  end.

Definition parse_unsigned (s : string) : option Z :=
  match s with
  | EmptyString => None
  | _ => parse_digits 0 s
  end.

Definition Atoi (s : string) : option Z :=
  match s with
  | EmptyString => None
  | String c rest =>
      let neg := Ascii.eqb c "-" in
      let digits := if neg || Ascii.eqb c "+" then rest else s in
      match parse_unsigned digits with
      | None => None
      | Some n =>
          let v := if neg then - n else n in
          if (min_int <=? v) && (v <=? max_int) then Some v else None
      end
  end.

(** ** HTTP layer *)

(** [Path] is [r.URL.Path].  Paths are taken without percent-escapes, so
    that it is also the escaped path the mux inspects. *)
Record Request := mkRequest { Method : string; Path : string; Body : string }.

(** What a handler writes.  [Text msg] is the body of [http.Error]
    (the message, to which net/http appends a newline, as text/plain);
    the [Json] constructors are the values handed to [json.Encoder],
    written as application/json.  Encoding an [Item], a slice of them or
    a [map[string]int] cannot fail, so the handlers' branches for an
    encoding error are not part of the model.  [Moved] is what the
    mux's redirect handler writes: a Location header with the cleaned
    path and a short note. *)
Inductive Payload :=
| NoBody
| Text (msg : string)
| JsonItem (item : Item)
| JsonItems (l : list Item)
| JsonId (id : Z)
| Moved.

Record Response := mkResponse { Status : Z; Content : Payload }.

Definition StatusOK : Z := 200.
Definition StatusCreated : Z := 201.
Definition StatusNoContent : Z := 204.
Definition StatusMovedPermanently : Z := 301.
Definition StatusBadRequest : Z := 400.
Definition StatusNotFound : Z := 404.
Definition StatusMethodNotAllowed : Z := 405.
Definition StatusInternalServerError : Z := 500.

Definition http_Error (msg : string) (code : Z) : Response :=
  {| Status := code; Content := Text msg |}.

Fixpoint string_drop (n : nat) (s : string) : string :=
  match n, s with
  | O, _ => s
  | S n', String _ s' => string_drop n' s'
  | S _, EmptyString => EmptyString
  end.

(** [r.URL.Path[len("/items/"):]].  The handlers that slice the path are
    only reached for paths that start with ["/items/"]. *)
Definition id_segment (r : Request) : string :=
  string_drop (String.length "/items/") (Path r).

(** ** Canonical paths

    Before it looks for a handler, the mux of net/http cleans the path
    ([cleanPath]: a leading slash, no empty segment, no [.] and no [..]
    segment, a trailing slash kept) and answers 301 when that changes
    it.  [is_clean_path p] says that [cleanPath] leaves [p] as it is.
    The scan keeps what the segment read so far looks like. *)

Inductive segment := SegEmpty | SegDot | SegDotDot | SegName.

Fixpoint clean_from (seg : segment) (s : string) : bool :=
  match s with
  | EmptyString =>
      match seg with
      | SegEmpty | SegName => true
      | SegDot | SegDotDot => false
      end
  | String c s' =>
      if Ascii.eqb c "/" then
        match seg with
        | SegName => clean_from SegEmpty s'
        | _ => false
        end
      else if Ascii.eqb c "." then
        match seg with
        | SegEmpty => clean_from SegDot s'
        | SegDot => clean_from SegDotDot s'
        | SegDotDot | SegName => clean_from SegName s'
        end
      else clean_from SegName s'
  end.

Definition is_clean_path (p : string) : bool :=
  match p with
  | String c s => Ascii.eqb c "/" && clean_from SegEmpty s
  | EmptyString => false
  end.

Section Server.

(** The two things the Go runtime decides for the handlers: the order
    in which [range] visits a map, and what [encoding/json] makes of a
    request body ([None]: the decoder reports an error). *)
Variable map_range : gmap Z Item -> list (Z * Item).
Variable json_decode : string -> option Item.

Definition GetItems (s : MemoryStore) : result (list Item) * MemoryStore :=
  (Ok (GetItems_loop (map_range (items s))), s).

Definition getItemHandler (s : MemoryStore) (r : Request)
  : Response * MemoryStore :=
  match Atoi (id_segment r) with
  | None => (http_Error "Invalid item ID" StatusBadRequest, s)
  | Some id =>
      match GetItem s id with
      | (Err e, s') => (http_Error (Error e) StatusNotFound, s')
      | (Ok item, s') => ({| Status := StatusOK; Content := JsonItem item |}, s')
      end
  end.

Definition addItemHandler (s : MemoryStore) (r : Request)
  : Response * MemoryStore :=
  match json_decode (Body r) with
  | None => (http_Error "Invalid request body" StatusBadRequest, s)
  | Some item =>
      if String.eqb (Name item) "" then
        (http_Error "Item name cannot be empty" StatusBadRequest, s)
      else if Value item <? 0 then
        (http_Error "Item value cannot be negative" StatusBadRequest, s)
      else
        match AddItem s item with
        | (Err _, s') =>
            (http_Error "Internal Server Error" StatusInternalServerError, s')
        | (Ok id, s') => ({| Status := StatusCreated; Content := JsonId id |}, s')
        end
  end.

Definition updateItemHandler (s : MemoryStore) (r : Request)
  : Response * MemoryStore :=
  match Atoi (id_segment r) with
  | None => (http_Error "Invalid item ID" StatusBadRequest, s)
  | Some id =>
      match json_decode (Body r) with
      | None => (http_Error "Invalid request body" StatusBadRequest, s)
      | Some item =>
          match UpdateItem s id item with
          | (Err e, s') => (http_Error (Error e) StatusNotFound, s')
          | (Ok _, s') => ({| Status := StatusNoContent; Content := NoBody |}, s')
          end
      end
  end.

Definition deleteItemHandler (s : MemoryStore) (r : Request)
  : Response * MemoryStore :=
  match Atoi (id_segment r) with
  | None => (http_Error "Invalid item ID" StatusBadRequest, s)
  | Some id =>
      match DeleteItem s id with
      | (Err e, s') => (http_Error (Error e) StatusNotFound, s')
      | (Ok _, s') => ({| Status := StatusNoContent; Content := NoBody |}, s')
      end
  end.

Definition getItemsHandler (s : MemoryStore) (r : Request)
  : Response * MemoryStore :=
  match GetItems s with
  | (Err _, s') =>
      (http_Error "Internal Server Error" StatusInternalServerError, s')
  | (Ok l, s') => ({| Status := StatusOK; Content := JsonItems l |}, s')
  end.

(** The function registered for the pattern ["/items/"]. *)
Definition itemsSubtree (s : MemoryStore) (r : Request)
  : Response * MemoryStore :=
  if String.eqb (Method r) "GET" then
    if String.eqb (Path r) "/items/" then getItemsHandler s r
    else getItemHandler s r
  else if String.eqb (Method r) "POST" then addItemHandler s r
  else if String.eqb (Method r) "PUT" then updateItemHandler s r
  else if String.eqb (Method r) "DELETE" then deleteItemHandler s r
  else (http_Error "Method not allowed" StatusMethodNotAllowed, s).

(** The mux of [main].  A path that is not canonical is answered 301
    by the mux itself, for every method but CONNECT, and no handler
    runs.  Otherwise the pattern ["/items"] matches that path only,
    ["/items/"] matches every path below it, and anything else is the
    mux's own 404. *)
Definition serve (s : MemoryStore) (r : Request) : Response * MemoryStore :=
  if negb (is_clean_path (Path r)) && negb (String.eqb (Method r) "CONNECT")
  then ({| Status := StatusMovedPermanently; Content := Moved |}, s)
  else if String.eqb (Path r) "/items" then getItemsHandler s r
  else if String.prefix "/items/" (Path r) then itemsSubtree s r
  else (http_Error "404 page not found" StatusNotFound, s).

(** A session: the requests served one after the other. *)
Fixpoint serve_all (s : MemoryStore) (rs : list Request)
  : list Response * MemoryStore :=
  match rs with
  | [] => ([], s)
  | r :: rs' =>
      let (resp, s') := serve s r in
      let (resps, s'') := serve_all s' rs' in
      (resp :: resps, s'')
  end.

End Server.

(** A decoder fixed on a few bodies, named rather than written out, to
    run the handlers on concrete requests.  The empty body is an error,
    as it is for [encoding/json]. *)
Definition sample_decode (body : string) : option Item :=
  if String.eqb body "test item" then
    Some {| ID := 0; Name := "Test Item"; Value := 111 |}
  else if String.eqb body "updated" then
    Some {| ID := 0; Name := "Updated"; Value := 20 |}
  else if String.eqb body "empty name" then
    Some {| ID := 0; Name := ""; Value := 5 |}
  else if String.eqb body "negative value" then
    Some {| ID := 0; Name := "X"; Value := -1 |}
  else if String.eqb body "empty name, negative value, id 7" then
    Some {| ID := 7; Name := ""; Value := -1 |}
  else None.

(** A store with one item, as after the first create. *)
Definition one_item : MemoryStore :=
  {| items := {[ 1 := mkItem 1 "Test Item" 111 ]}; nextID := 2 |}.

(** * Properties *)

(** ** Machine arithmetic *)

Lemma wrap64_in_int z : in_int (wrap64 z).
Proof.
  unfold in_int, wrap64, min_int, max_int.
  pose proof (Z.mod_pos_bound (z - -9223372036854775808) 18446744073709551616).
  lia.
Qed.

Lemma wrap64_id z : in_int z -> wrap64 z = z.
Proof.
  unfold in_int, wrap64, min_int, max_int. intros Hz.
  rewrite Z.mod_small by lia. lia.
Qed.

Lemma wrap64_plus a b : wrap64 (wrap64 a + b) = wrap64 (a + b).
Proof.
  unfold wrap64. f_equal.
  replace ((a - min_int) mod 18446744073709551616 + min_int + b - min_int)
    with ((a - min_int) mod 18446744073709551616 + b) by lia.
  rewrite Zplus_mod_idemp_l. f_equal. lia.
Qed.

(** The counter never stands still: [n + 1] wraps to something else. *)
Lemma wrap64_succ_neq z : wrap64 (z + 1) <> z.
Proof.
  unfold wrap64, min_int. intros H.
  pose proof (Z.mod_pos_bound (z + 1 - -9223372036854775808) 18446744073709551616).
  pose proof (Z.div_mod (z + 1 - -9223372036854775808) 18446744073709551616).
  lia.
Qed.

(** ** Single operations *)

Lemma nextID_UpdateItem s id item : nextID (snd (UpdateItem s id item)) = nextID s.
Proof. unfold UpdateItem. destruct (items s !! id); reflexivity. Qed.

Lemma nextID_DeleteItem s id : nextID (snd (DeleteItem s id)) = nextID s.
Proof. unfold DeleteItem. destruct (items s !! id); reflexivity. Qed.

Lemma AddItem_changes_store s item : snd (AddItem s item) <> s.
Proof.
  intros H. apply (f_equal nextID) in H. simpl in H.
  exact (wrap64_succ_neq _ H).
Qed.

Lemma run_app s ops1 ops2 : run s (ops1 ++ ops2) = run (run s ops1) ops2.
Proof. unfold run. apply fold_left_app. Qed.

Lemma run_cons s op ops : run s (op :: ops) = run (step s op) ops.
Proof. reflexivity. Qed.

Lemma adds_app ops1 ops2 : adds (ops1 ++ ops2) = (adds ops1 + adds ops2)%nat.
Proof.
  induction ops1 as [|[item|id item|id] ops1 IH]; simpl; auto.
Qed.

Lemma assigned_app ops1 : forall s ops2,
  assigned s (ops1 ++ ops2) = assigned s ops1 ++ assigned (run s ops1) ops2.
Proof.
  induction ops1 as [|op ops1 IH]; intros s ops2; [reflexivity|].
  rewrite run_cons. destruct op; simpl; rewrite IH; reflexivity.
Qed.

(** ** Sequences of operations *)

Lemma in_int_nextID_step s op : in_int (nextID s) -> in_int (nextID (step s op)).
Proof.
  intros H. destruct op; simpl step.
  - apply wrap64_in_int.
  - rewrite nextID_UpdateItem. exact H.
  - rewrite nextID_DeleteItem. exact H.
Qed.

(** The counter after a sequence: its start plus the number of adds,
    wrapped. *)
Lemma nextID_run ops : forall s,
  in_int (nextID s) ->
  nextID (run s ops) = wrap64 (nextID s + Z.of_nat (adds ops)).
Proof.
  induction ops as [|op ops IH]; intros s Hs.
  - simpl. rewrite Z.add_0_r, wrap64_id; auto.
  - rewrite run_cons, IH by (apply in_int_nextID_step; exact Hs).
    destruct op; simpl step; simpl adds.
    + simpl nextID. rewrite wrap64_plus. f_equal. lia.
    + rewrite nextID_UpdateItem. reflexivity.
    + rewrite nextID_DeleteItem. reflexivity.
Qed.

(** The ids a sequence hands out: the counter's successive values. *)
Lemma assigned_wrap ops : forall s,
  in_int (nextID s) ->
  assigned s ops =
  List.map (fun k => wrap64 (nextID s + Z.of_nat k)) (seq 0 (adds ops)).
Proof.
  induction ops as [|op ops IH]; intros s Hs; [reflexivity|].
  pose proof (in_int_nextID_step s op Hs) as Hs'.
  destruct op as [item|id item|id]; simpl assigned; simpl adds.
  - rewrite IH by exact Hs'.
    change (seq 0 (S (adds ops))) with (0%nat :: seq 1 (adds ops)).
    rewrite <- seq_shift, List.map_cons, List.map_map.
    change (Z.of_nat 0) with 0.
    rewrite Z.add_0_r, (wrap64_id (nextID s)) by exact Hs.
    f_equal. apply List.map_ext. intros k.
    simpl nextID. rewrite wrap64_plus. f_equal. lia.
  - rewrite IH by exact Hs'. simpl step. rewrite nextID_UpdateItem. reflexivity.
  - rewrite IH by exact Hs'. simpl step. rewrite nextID_DeleteItem. reflexivity.
Qed.

Lemma in_assigned s ops id :
  in_int (nextID s) ->
  In id (assigned s ops) <->
  exists k, (k < adds ops)%nat /\ id = wrap64 (nextID s + Z.of_nat k).
Proof.
  intros Hs. rewrite assigned_wrap by exact Hs. rewrite in_map_iff. split.
  - intros (k & Hk & Hin). apply in_seq in Hin. exists k. split; [lia|auto].
  - intros (k & Hk & ->). exists k. split; [reflexivity|]. apply in_seq. lia.
Qed.

(** Every key of the map was already there or was handed out by an add. *)
Lemma keys_assigned ops : forall s k,
  is_Some (items (run s ops) !! k) ->
  is_Some (items s !! k) \/ In k (assigned s ops).
Proof.
  induction ops as [|op ops IH]; intros s k Hk; [left; exact Hk|].
  rewrite run_cons in Hk. apply IH in Hk.
  destruct op as [item|id item|id]; simpl assigned.
  - destruct Hk as [Hk|Hk]; [|right; right; exact Hk].
    simpl in Hk. rewrite lookup_insert in Hk.
    destruct (decide (nextID s = k)) as [->|]; [right; left; reflexivity|].
    left. exact Hk.
  - destruct Hk as [Hk|Hk]; [left|right; exact Hk].
    simpl in Hk. unfold UpdateItem in Hk.
    destruct (items s !! id) eqn:E; simpl in Hk; [|exact Hk].
    rewrite lookup_insert in Hk.
    destruct (decide (id = k)) as [<-|]; [rewrite E; eauto|exact Hk].
  - destruct Hk as [Hk|Hk]; [left|right; exact Hk].
    simpl in Hk. unfold DeleteItem in Hk.
    destruct (items s !! id) eqn:E; simpl in Hk; [|exact Hk].
    rewrite lookup_delete in Hk.
    destruct (decide (id = k)); [destruct Hk; discriminate|exact Hk].
Qed.

Lemma keyed_by_id_step s op : keyed_by_id s -> keyed_by_id (step s op).
Proof.
  unfold keyed_by_id. intros Hs k it.
  destruct op as [item|id item|id]; simpl.
  - rewrite lookup_insert. destruct (decide (nextID s = k)) as [<-|].
    + intros [= <-]. reflexivity.
    + apply Hs.
  - unfold UpdateItem. destruct (items s !! id) eqn:E; simpl; [|apply Hs].
    rewrite lookup_insert. destruct (decide (id = k)) as [<-|].
    + intros [= <-]. reflexivity.
    + apply Hs.
  - unfold DeleteItem. destruct (items s !! id) eqn:E; simpl; [|apply Hs].
    rewrite lookup_delete. destruct (decide (id = k)); [discriminate|apply Hs].
Qed.

Lemma keyed_by_id_run ops : forall s, keyed_by_id s -> keyed_by_id (run s ops).
Proof.
  induction ops as [|op ops IH]; intros s Hs; [exact Hs|].
  rewrite run_cons. apply IH, keyed_by_id_step, Hs.
Qed.

Lemma keyed_by_id_new : keyed_by_id NewMemoryStore.
Proof. intros k it. simpl. rewrite lookup_empty. discriminate. Qed.

Lemma in_int_new : in_int (nextID NewMemoryStore).
Proof. unfold in_int, min_int, max_int. simpl. lia. Qed.

(** ** Reaching any counter value

    Adding an item and deleting it again leaves the map as it was and
    moves the counter on by one; repeated, this takes an empty store to
    any value of the counter. *)

Lemma add_delete_empty n :
  run {| items := ∅; nextID := n |} [OpAdd probe; OpDelete n]
  = {| items := ∅; nextID := wrap64 (n + 1) |}.
Proof.
  unfold run. simpl. unfold DeleteItem. simpl.
  rewrite lookup_insert_eq. simpl.
  rewrite delete_insert_eq, delete_empty. reflexivity.
Qed.

Lemma churn z :
  0 <= z ->
  exists ops,
    run NewMemoryStore ops = {| items := ∅; nextID := wrap64 (1 + z) |}
    /\ Z.of_nat (adds ops) = z.
Proof.
  revert z. apply natlike_ind.
  - exists []. split; reflexivity.
  - intros x Hx (ops & Hrun & Hadds).
    exists (ops ++ [OpAdd probe; OpDelete (wrap64 (1 + x))]). split.
    + rewrite run_app, Hrun, add_delete_empty, wrap64_plus.
      replace (1 + Z.succ x) with (1 + x + 1) by lia. reflexivity.
    + rewrite adds_app. simpl. lia.
Qed.

Lemma StronglySorted_suffix {A} (R : A -> A -> Prop) l1 l2 :
  StronglySorted R (l1 ++ l2) -> StronglySorted R l2.
Proof.
  induction l1 as [|x l1 IH]; simpl; [auto|].
  intros H. apply StronglySorted_inv in H. apply IH, H.
Qed.

(** ** C1: ids returned by AddItem *)

(** C1 (as amended).  In a sequence of operations on a store created by
    [NewMemoryStore] that calls [AddItem] at most 2^63-1 times, the ids
    returned by the [AddItem] calls are strictly increasing in the order
    of the calls: each is greater than, and so different from, every id
    returned before. *)
Theorem AddItem_ids_increasing ops :
  Z.of_nat (adds ops) <= max_int ->
  StronglySorted Z.lt (assigned NewMemoryStore ops)
  /\ NoDup (assigned NewMemoryStore ops).
Proof.
  intros Hn.
  assert (Hs : StronglySorted Z.lt (assigned NewMemoryStore ops)).
  { rewrite assigned_wrap by apply in_int_new. simpl nextID.
    assert (Hgen : forall n a, Z.of_nat (a + n) <= max_int ->
              StronglySorted Z.lt
                (List.map (fun k => wrap64 (1 + Z.of_nat k)) (seq a n))).
    { induction n as [|n IH]; intros a Ha; cbn [seq List.map]; constructor.
      - apply IH. lia.
      - apply List.Forall_forall. intros y Hy. apply in_map_iff in Hy.
        destruct Hy as (k & <- & Hk). apply in_seq in Hk.
        assert (Hmin : min_int = -9223372036854775808) by reflexivity.
        rewrite !wrap64_id by (unfold in_int; lia). lia. }
    apply Hgen. exact Hn. }
  split; [exact Hs|].
  clear Hn. induction Hs as [|x l Hs IH Hx]; constructor; auto.
  rewrite list_elem_of_In. intros Hin.
  rewrite List.Forall_forall in Hx. specialize (Hx x Hin). lia.
Qed.

Lemma AddItem_ids_increasing_witness :
  StronglySorted Z.lt
    (assigned NewMemoryStore [OpAdd probe; OpDelete 1; OpAdd probe; OpAdd probe])
  /\ NoDup
    (assigned NewMemoryStore [OpAdd probe; OpDelete 1; OpAdd probe; OpAdd probe]).
Proof.
  apply (AddItem_ids_increasing
           [OpAdd probe; OpDelete 1; OpAdd probe; OpAdd probe]).
  vm_compute. discriminate.
Defined.

(** C1 as stated fails once the 64-bit counter wraps: from the reachable
    store whose counter stands at the largest [int], two calls of
    [AddItem] return 9223372036854775807 and then -9223372036854775808.
    Hence the ids of a sequence are not always increasing. *)
Lemma AddItem_ids_wrap :
  reachable {| items := ∅; nextID := max_int |}
  /\ assigned {| items := ∅; nextID := max_int |} [OpAdd probe; OpAdd probe]
     = [max_int; min_int]
  /\ ~ (forall ops, StronglySorted Z.lt (assigned NewMemoryStore ops)).
Proof.
  destruct (churn (max_int - 1)) as (ops & Hrun & Hadds);
    [unfold max_int; lia|].
  replace (1 + (max_int - 1)) with max_int in Hrun by lia.
  rewrite (wrap64_id max_int) in Hrun by (unfold in_int, min_int, max_int; lia).
  split; [exists ops; exact Hrun|].
  split; [reflexivity|].
  intros Hall. specialize (Hall (ops ++ [OpAdd probe; OpAdd probe])).
  rewrite assigned_app, Hrun in Hall.
  apply StronglySorted_suffix in Hall.
  apply StronglySorted_inv in Hall. destruct Hall as [_ Hall].
  apply Forall_inv in Hall. vm_compute in Hall. discriminate.
Qed.

(** ** C7: the invariants of the store *)

Lemma keys_were_assigned ops k :
  is_Some (items (run NewMemoryStore ops) !! k) ->
  In k (assigned NewMemoryStore ops).
Proof.
  intros Hk. apply keys_assigned in Hk. destruct Hk as [Hk|Hk]; [|exact Hk].
  change (items NewMemoryStore) with (∅ : gmap Z Item) in Hk.
  rewrite lookup_empty in Hk. destruct Hk; discriminate.
Qed.

Lemma zero_not_assigned ops :
  Z.of_nat (adds ops) < 18446744073709551616 ->
  ~ In 0 (assigned NewMemoryStore ops).
Proof.
  intros Hn Hin. apply in_assigned in Hin; [|apply in_int_new].
  destruct Hin as (k & Hk & H0).
  change (nextID NewMemoryStore) with 1 in H0.
  unfold wrap64 in H0.
  assert (Hmin : min_int = -9223372036854775808) by reflexivity.
  pose proof (Z.mod_pos_bound (1 + Z.of_nat k - min_int) 18446744073709551616).
  pose proof (Z.div_mod (1 + Z.of_nat k - min_int) 18446744073709551616).
  lia.
Qed.

Lemma assigned_below_counter ops id :
  Z.of_nat (adds ops) < max_int ->
  In id (assigned NewMemoryStore ops) ->
  1 <= id < nextID (run NewMemoryStore ops).
Proof.
  intros Hn Hin. apply in_assigned in Hin; [|apply in_int_new].
  destruct Hin as (k & Hk & ->).
  rewrite nextID_run by apply in_int_new.
  change (nextID NewMemoryStore) with 1.
  assert (Hmin : min_int = -9223372036854775808) by reflexivity.
  rewrite !wrap64_id by (unfold in_int; lia). lia.
Qed.

(** C7 (as amended).  In the store [s] reached from [NewMemoryStore] by
    any sequence of [AddItem], [UpdateItem] and [DeleteItem] operations:
    every stored Item's id field equals its key, and every key is an id
    some [AddItem] of the sequence returned.  While fewer than 2^64
    adds have been made, 0 was not assigned and is not a key.  While
    fewer than 2^63-1 adds have been made, every id assigned so far lies
    between 1 and the counter, the counter excluded, so the next
    [AddItem] returns an id that was never assigned, deleted or not. *)
Theorem store_invariant ops :
  keyed_by_id (run NewMemoryStore ops)
  /\ (forall k, is_Some (items (run NewMemoryStore ops) !! k) ->
        In k (assigned NewMemoryStore ops))
  /\ (Z.of_nat (adds ops) < 18446744073709551616 ->
      ~ In 0 (assigned NewMemoryStore ops)
      /\ items (run NewMemoryStore ops) !! 0 = None)
  /\ (Z.of_nat (adds ops) < max_int ->
      (forall id, In id (assigned NewMemoryStore ops) ->
         1 <= id < nextID (run NewMemoryStore ops))
      /\ forall item, exists id,
           fst (AddItem (run NewMemoryStore ops) item) = Ok id
           /\ ~ In id (assigned NewMemoryStore ops)).
Proof.
  split; [apply keyed_by_id_run, keyed_by_id_new|].
  split; [apply keys_were_assigned|].
  split.
  - intros Hn. split; [apply zero_not_assigned, Hn|].
    destruct (items (run NewMemoryStore ops) !! 0) eqn:E; [|reflexivity].
    exfalso. apply (zero_not_assigned ops Hn), keys_were_assigned.
    rewrite E. eauto.
  - intros Hn. split; [intros id; apply assigned_below_counter, Hn|].
    intros item. exists (nextID (run NewMemoryStore ops)).
    split; [reflexivity|].
    intros Hin. apply (assigned_below_counter _ _ Hn) in Hin. lia.
Qed.

Lemma store_invariant_witness :
  let ops := [OpAdd probe; OpAdd probe; OpDelete 1; OpUpdate 2 probe] in
  (forall id, In id (assigned NewMemoryStore ops) ->
     1 <= id < nextID (run NewMemoryStore ops))
  /\ items (run NewMemoryStore ops) !! 0 = None.
Proof.
  intros ops.
  destruct (store_invariant ops) as (_ & _ & Hzero & Hrange).
  split.
  - apply Hrange. vm_compute. reflexivity.
  - apply Hzero. vm_compute. reflexivity.
Defined.

(** C7 as stated fails once the 64-bit counter wraps.  After 2^63-1 adds
    the reachable store below still holds the item with the largest
    [int] as its id while its counter stands at the smallest; after
    2^64-1 adds the counter is 0 and the next [AddItem], the 2^64th,
    stores an item under key 0; after 2^64 adds the counter is 1 again
    and [AddItem] hands out id 1 a second time. *)
Lemma store_invariant_wraps :
  (reachable {| items := {[ max_int := mkItem max_int "a" 0 ]};
                nextID := min_int |}
   /\ ~ (max_int < min_int))
  /\ reachable {| items := {[ 0 := mkItem 0 "a" 0 ]}; nextID := 1 |}
  /\ (exists ops, In 1 (assigned NewMemoryStore ops)
        /\ fst (AddItem (run NewMemoryStore ops) probe) = Ok 1).
Proof.
  split; [split|split].
  - destruct (churn (max_int - 1)) as (ops & Hrun & _); [unfold max_int; lia|].
    replace (1 + (max_int - 1)) with max_int in Hrun by lia.
    rewrite (wrap64_id max_int) in Hrun by (unfold in_int, min_int, max_int; lia).
    exists (ops ++ [OpAdd probe]). rewrite run_app, Hrun. reflexivity.
  - unfold max_int, min_int. lia.
  - destruct (churn 18446744073709551615) as (ops & Hrun & _); [lia|].
    change (wrap64 (1 + 18446744073709551615)) with 0 in Hrun.
    exists (ops ++ [OpAdd probe]). rewrite run_app, Hrun. reflexivity.
  - destruct (churn 18446744073709551616) as (ops & Hrun & Hadds); [lia|].
    change (wrap64 (1 + 18446744073709551616)) with 1 in Hrun.
    exists ops. split.
    + apply in_assigned; [apply in_int_new|]. exists 0%nat. split; [lia|].
      reflexivity.
    + rewrite Hrun. reflexivity.
Qed.

(** ** C2: add, then get *)

(** C2.  For every store and every candidate item, [AddItem] succeeds
    and returns the counter's value as the new id; [GetItem] with that id
    then succeeds, leaves the store alone and yields the item with that
    id and the candidate's name and value.  The id carried by the
    candidate plays no part: any other id in its place gives the same
    result and the same store. *)
Theorem AddItem_then_GetItem (s : MemoryStore) (item : Item) :
  exists id s',
    AddItem s item = (Ok id, s')
    /\ id = nextID s
    /\ GetItem s' id
       = (Ok {| ID := id; Name := Name item; Value := Value item |}, s')
    /\ forall j,
         AddItem s {| ID := j; Name := Name item; Value := Value item |}
         = (Ok id, s').
Proof.
  exists (nextID s), (snd (AddItem s item)).
  split; [reflexivity|]. split; [reflexivity|]. split; [|reflexivity].
  unfold GetItem. cbn [AddItem snd items ID].
  rewrite lookup_insert_eq. reflexivity.
Qed.

(** ** C3: update keeps the id *)

(** C3.  When [id] is a key of the store, [UpdateItem id replacement]
    succeeds; afterwards the entry at [id] carries [id] itself as its id
    field, and the replacement's name and value.  The id field of the
    replacement is ignored, the other entries and the counter are left
    as they were, and in a store whose items carry their keys the id
    field of the entry is the one it had before. *)
Theorem UpdateItem_present (s : MemoryStore) (id : Z) (old replacement : Item) :
  items s !! id = Some old ->
  exists s',
    UpdateItem s id replacement = (Ok tt, s')
    /\ items s' !! id
       = Some {| ID := id; Name := Name replacement; Value := Value replacement |}
    /\ (forall k, k <> id -> items s' !! k = items s !! k)
    /\ nextID s' = nextID s
    /\ (forall j,
          UpdateItem s id
            {| ID := j; Name := Name replacement; Value := Value replacement |}
          = (Ok tt, s'))
    /\ (keyed_by_id s -> ID old = id).
Proof.
  intros Hold. unfold UpdateItem. rewrite Hold.
  eexists. split; [reflexivity|]. cbn [items nextID Name Value].
  split; [apply lookup_insert_eq|].
  split; [intros k Hk; apply lookup_insert_ne; congruence|].
  split; [reflexivity|]. split; [reflexivity|].
  intros Hkeyed. apply Hkeyed, Hold.
Qed.

Lemma UpdateItem_present_witness :
  exists s',
    UpdateItem {| items := {[ 3 := mkItem 3 "old" 1 ]}; nextID := 4 |} 3
      (mkItem 99 "X" 5) = (Ok tt, s')
    /\ items s' !! 3 = Some (mkItem 3 "X" 5).
Proof.
  destruct (UpdateItem_present
              {| items := {[ 3 := mkItem 3 "old" 1 ]}; nextID := 4 |}
              3 (mkItem 3 "old" 1) (mkItem 99 "X" 5))
    as (s' & Hupd & Hget & _).
  - vm_compute. reflexivity.
  - exists s'. split; [exact Hupd|exact Hget].
Defined.

(** ** The id segment *)

Lemma digit_val_nonneg c : is_digit c = true -> 0 <= digit_val c.
Proof.
  unfold is_digit, digit_val. intros H.
  apply andb_prop in H. destruct H as [H _]. apply Z.leb_le in H. lia.
Qed.

Lemma parse_digits_nonneg str : forall acc n,
  0 <= acc -> parse_digits acc str = Some n -> 0 <= n.
Proof.
  induction str as [|c str IH]; intros acc n Hacc; simpl.
  - intros [= <-]. exact Hacc.
  - destruct (is_digit c) eqn:Hc; [|discriminate].
    apply IH. pose proof (digit_val_nonneg c Hc). lia.
Qed.

Lemma parse_unsigned_nonneg str n : parse_unsigned str = Some n -> 0 <= n.
Proof.
  destruct str as [|c str]; [discriminate|].
  unfold parse_unsigned. apply parse_digits_nonneg. lia.
Qed.

(** A minus sign and digits: accepted as long as the value fits. *)
Lemma Atoi_minus digits n :
  parse_unsigned digits = Some n ->
  n <= 9223372036854775808 ->
  Atoi (String "-" digits) = Some (- n).
Proof.
  intros Hp Hn. pose proof (parse_unsigned_nonneg _ _ Hp) as H0.
  unfold Atoi. change (Ascii.eqb "-" "-") with true. cbn [orb].
  rewrite Hp. cbv zeta.
  replace ((min_int <=? - n) && (- n <=? max_int)) with true; [reflexivity|].
  symmetry. apply andb_true_intro. unfold min_int, max_int.
  split; apply Z.leb_le; lia.
Qed.

Lemma Atoi_minus_too_small digits n :
  parse_unsigned digits = Some n ->
  9223372036854775808 < n ->
  Atoi (String "-" digits) = None.
Proof.
  intros Hp Hn. unfold Atoi. change (Ascii.eqb "-" "-") with true. cbn [orb].
  rewrite Hp. cbv zeta.
  replace (min_int <=? - n) with false; [reflexivity|].
  symmetry. apply Z.leb_gt. unfold min_int. lia.
Qed.

(** Before the counter wraps, every key of the store is positive. *)
Lemma keys_positive ops k :
  Z.of_nat (adds ops) <= max_int ->
  k <= 0 ->
  items (run NewMemoryStore ops) !! k = None.
Proof.
  intros Hn Hk.
  destruct (items (run NewMemoryStore ops) !! k) eqn:E; [|reflexivity].
  exfalso.
  assert (Hin : In k (assigned NewMemoryStore ops)).
  { apply keys_were_assigned. rewrite E. eauto. }
  apply in_assigned in Hin; [|apply in_int_new].
  destruct Hin as (j & Hj & ->).
  change (nextID NewMemoryStore) with 1 in Hk.
  assert (Hmin : min_int = -9223372036854775808) by reflexivity.
  rewrite wrap64_id in Hk by (unfold in_int; lia). lia.
Qed.

(** ** Routing *)

Lemma digit_not_separator c :
  is_digit c = true -> Ascii.eqb c "/" = false /\ Ascii.eqb c "." = false.
Proof.
  intros Hc. split.
  - destruct (Ascii.eqb_spec c "/") as [->|]; [discriminate|reflexivity].
  - destruct (Ascii.eqb_spec c ".") as [->|]; [discriminate|reflexivity].
Qed.

(** Digits make a segment with a name. *)
Lemma clean_from_digits str : forall acc n,
  parse_digits acc str = Some n -> clean_from SegName str = true.
Proof.
  induction str as [|c str IH]; intros acc n; simpl; [reflexivity|].
  destruct (is_digit c) eqn:Hc; [|discriminate].
  destruct (digit_not_separator c Hc) as [-> ->]. apply IH.
Qed.

(** What [Atoi] accepts is one segment, neither empty nor dots. *)
Lemma clean_from_Atoi str id :
  Atoi str = Some id -> clean_from SegEmpty str = true.
Proof.
  destruct str as [|c rest]; [discriminate|]. unfold Atoi.
  destruct (Ascii.eqb_spec c "-") as [->|Hminus].
  - cbn [orb]. destruct rest as [|d rest]; [discriminate|].
    unfold parse_unsigned.
    destruct (parse_digits 0 (String d rest)) eqn:Hd; [|discriminate].
    intros _. apply (clean_from_digits _ _ _ Hd).
  - destruct (Ascii.eqb_spec c "+") as [->|Hplus]; cbn [orb].
    + destruct rest as [|d rest]; [discriminate|].
      unfold parse_unsigned.
      destruct (parse_digits 0 (String d rest)) eqn:Hd; [|discriminate].
      intros _. apply (clean_from_digits _ _ _ Hd).
    + unfold parse_unsigned.
      destruct (parse_digits 0 (String c rest)) eqn:Hd; [|discriminate].
      intros _. revert Hd. simpl.
      destruct (is_digit c) eqn:Hc; [|discriminate].
      destruct (digit_not_separator c Hc) as [-> ->].
      apply clean_from_digits.
Qed.

Lemma below_items_split p :
  String.prefix "/items/" p = true ->
  p = ("/items/" ++ string_drop (String.length "/items/") p)%string.
Proof.
  intros H.
  do 7 (destruct p as [|? p]; [discriminate H|];
        cbn [String.prefix] in H;
        match type of H with
        | (if ascii_dec ?a ?b then _ else _) = true =>
            destruct (ascii_dec a b) as [<-|]; [|discriminate H]
        end).
  reflexivity.
Qed.

(** A path below ["/items/"] whose id segment [Atoi] accepts is
    canonical. *)
Lemma clean_id_path r id :
  String.prefix "/items/" (Path r) = true ->
  Atoi (id_segment r) = Some id ->
  is_clean_path (Path r) = true.
Proof.
  intros Hp Hid. rewrite (below_items_split _ Hp).
  apply clean_from_Atoi in Hid. exact Hid.
Qed.

Lemma below_items_not_items p :
  String.prefix "/items/" p = true -> String.eqb p "/items" = false.
Proof.
  intros H. destruct (String.eqb_spec p "/items") as [->|]; [|reflexivity].
  vm_compute in H. discriminate.
Qed.

Section Routing.

Context (map_range : gmap Z Item -> list (Z * Item)).
Context (json_decode : string -> option Item).

Lemma serve_below_items s r :
  is_clean_path (Path r) = true ->
  String.prefix "/items/" (Path r) = true ->
  serve map_range json_decode s r = itemsSubtree map_range json_decode s r.
Proof.
  intros Hc H. unfold serve.
  rewrite Hc, (below_items_not_items _ H), H. reflexivity.
Qed.


Lemma serve_post s r :
  is_clean_path (Path r) = true ->
  String.prefix "/items/" (Path r) = true ->
  Method r = "POST"%string ->
  serve map_range json_decode s r = addItemHandler json_decode s r.
Proof.
  intros Hc H Hm. rewrite serve_below_items by assumption.
  unfold itemsSubtree. rewrite Hm. reflexivity.
Qed.

Lemma serve_put s r :
  is_clean_path (Path r) = true ->
  String.prefix "/items/" (Path r) = true ->
  Method r = "PUT"%string ->
  serve map_range json_decode s r = updateItemHandler json_decode s r.
Proof.
  intros Hc H Hm. rewrite serve_below_items by assumption.
  unfold itemsSubtree. rewrite Hm. reflexivity.
Qed.

Lemma serve_delete s r :
  is_clean_path (Path r) = true ->
  String.prefix "/items/" (Path r) = true ->
  Method r = "DELETE"%string ->
  serve map_range json_decode s r = deleteItemHandler s r.
Proof.
  intros Hc H Hm. rewrite serve_below_items by assumption.
  unfold itemsSubtree. rewrite Hm. reflexivity.
Qed.

Lemma serve_get_one s r :
  is_clean_path (Path r) = true ->
  String.prefix "/items/" (Path r) = true ->
  Path r <> "/items/"%string ->
  Method r = "GET"%string ->
  serve map_range json_decode s r = getItemHandler s r.
Proof.
  intros Hc H Hp Hm. rewrite serve_below_items by assumption.
  unfold itemsSubtree. rewrite Hm. apply String.eqb_neq in Hp.
  rewrite Hp. reflexivity.
Qed.

(** On the subtree ["/items/"] the dispatch ends in the default case
    for every method other than the four it names: 405, store as it
    was. *)
Lemma serve_other_method s r :
  is_clean_path (Path r) = true ->
  String.prefix "/items/" (Path r) = true ->
  Method r <> "GET"%string -> Method r <> "POST"%string ->
  Method r <> "PUT"%string -> Method r <> "DELETE"%string ->
  serve map_range json_decode s r
  = (http_Error "Method not allowed" StatusMethodNotAllowed, s).
Proof.
  intros Hc H Hg Hpo Hpu Hd. rewrite serve_below_items by assumption.
  unfold itemsSubtree.
  apply String.eqb_neq in Hg, Hpo, Hpu, Hd.
  rewrite Hg, Hpo, Hpu, Hd. reflexivity.
Qed.

(** ** C4: methods on the route /items *)

(** C4 (what the code does).  A request for the path ["/items"] is
    handed to [getItemsHandler] whatever its method: the answer is 200
    with the list of items, never 405.  The store is left as it was. *)
Theorem items_route_ignores_method (s : MemoryStore) (m body : string) :
  serve map_range json_decode s
    {| Method := m; Path := "/items"; Body := body |}
  = ({| Status := 200;
        Content := JsonItems (GetItems_loop (map_range (items s))) |}, s).
Proof. reflexivity. Qed.

(** ** C5: rejected creations *)

(** C5.  A create request whose body decodes to an item with an empty
    name is answered 400 "Item name cannot be empty"; one with a name
    and a negative value is answered 400 "Item value cannot be
    negative".  In both cases the handler returns the store it was
    given (which [AddItem], had it run, would have changed), so any
    later create is answered as if the rejected one had not been
    made.  The same holds for the request sent through the mux on a
    canonical path below ["/items/"]. *)
Theorem create_rejected (s : MemoryStore) (r : Request) (item : Item) :
  json_decode (Body r) = Some item ->
  Name item = ""%string \/ Value item < 0 ->
  (Name item = ""%string ->
   addItemHandler json_decode s r
   = (http_Error "Item name cannot be empty" 400, s))
  /\ (Name item <> ""%string ->
      addItemHandler json_decode s r
      = (http_Error "Item value cannot be negative" 400, s))
  /\ snd (addItemHandler json_decode s r) = s
  /\ (forall candidate, snd (AddItem s candidate) <> s)
  /\ (forall r',
        addItemHandler json_decode (snd (addItemHandler json_decode s r)) r'
        = addItemHandler json_decode s r')
  /\ (Method r = "POST"%string ->
      is_clean_path (Path r) = true ->
      String.prefix "/items/" (Path r) = true ->
      serve map_range json_decode s r = addItemHandler json_decode s r).
Proof.
  intros Hdec Hbad.
  assert (Hname : Name item = ""%string ->
            addItemHandler json_decode s r
            = (http_Error "Item name cannot be empty" 400, s)).
  { intros Hn. unfold addItemHandler. rewrite Hdec, Hn. reflexivity. }
  assert (Hvalue : Name item <> ""%string ->
            addItemHandler json_decode s r
            = (http_Error "Item value cannot be negative" 400, s)).
  { intros Hn. unfold addItemHandler. rewrite Hdec.
    apply String.eqb_neq in Hn. rewrite Hn.
    destruct Hbad as [Hbad|Hbad];
      [apply String.eqb_neq in Hn; contradiction|].
    apply Z.ltb_lt in Hbad. rewrite Hbad. reflexivity. }
  assert (Hsame : snd (addItemHandler json_decode s r) = s).
  { destruct (string_dec (Name item) "") as [Hn|Hn].
    - rewrite (Hname Hn). reflexivity.
    - rewrite (Hvalue Hn). reflexivity. }
  split; [exact Hname|]. split; [exact Hvalue|]. split; [exact Hsame|].
  split; [intros c; apply AddItem_changes_store|].
  split; [intros r'; rewrite Hsame; reflexivity|].
  intros Hm Hc Hp. apply serve_post; assumption.
Qed.

(** ** C6: absent ids *)

Lemma absent_after_delete s id :
  fst (DeleteItem s id) = Ok tt -> items (snd (DeleteItem s id)) !! id = None.
Proof.
  unfold DeleteItem. destruct (items s !! id); simpl; [|discriminate].
  intros _. apply lookup_delete_eq.
Qed.

(** C6.  When [id] is not a key of the store, [GetItem], [UpdateItem]
    and [DeleteItem] each return the not-found error and the store they
    were given, and the handlers that reach them answer 404 with the
    error's text and leave the store alone.  After a successful
    [DeleteItem id] the id is absent: a second [DeleteItem id] and any
    number of further [GetItem id] calls fail with not-found. *)
Theorem absent_id_not_found (s : MemoryStore) (id : Z) :
  (items s !! id = None ->
   GetItem s id = (Err (NotFound id), s)
   /\ (forall item, UpdateItem s id item = (Err (NotFound id), s))
   /\ DeleteItem s id = (Err (NotFound id), s)
   /\ forall r, Atoi (id_segment r) = Some id ->
        getItemHandler s r = (http_Error (Error (NotFound id)) 404, s)
        /\ deleteItemHandler s r = (http_Error (Error (NotFound id)) 404, s)
        /\ forall item, json_decode (Body r) = Some item ->
             updateItemHandler json_decode s r
             = (http_Error (Error (NotFound id)) 404, s))
  /\ (fst (DeleteItem s id) = Ok tt ->
      let s' := snd (DeleteItem s id) in
      DeleteItem s' id = (Err (NotFound id), s')
      /\ forall n,
           Nat.iter n (fun st => snd (GetItem st id)) s' = s'
           /\ GetItem (Nat.iter n (fun st => snd (GetItem st id)) s') id
              = (Err (NotFound id), s')).
Proof.
  assert (Habsent : forall st, items st !! id = None ->
            GetItem st id = (Err (NotFound id), st)
            /\ (forall item, UpdateItem st id item = (Err (NotFound id), st))
            /\ DeleteItem st id = (Err (NotFound id), st)).
  { intros st Hst. unfold GetItem, UpdateItem, DeleteItem. rewrite Hst. auto. }
  split.
  - intros Hnone. destruct (Habsent s Hnone) as (Hget & Hupd & Hdel).
    repeat split; auto.
    + unfold getItemHandler. rewrite H, Hget. reflexivity.
    + unfold deleteItemHandler. rewrite H, Hdel. reflexivity.
    + intros item Hdec. unfold updateItemHandler.
      rewrite H, Hdec, Hupd. reflexivity.
  - intros Hok s'. pose proof (absent_after_delete s id Hok) as Hnone.
    fold s' in Hnone. destruct (Habsent s' Hnone) as (Hget & _ & Hdel).
    split; [exact Hdel|].
    assert (Hiter : forall n,
              Nat.iter n (fun st => snd (GetItem st id)) s' = s').
    { induction n as [|n IH]; [reflexivity|].
      rewrite Nat.iter_succ, IH, Hget. reflexivity. }
    intros n. split; [apply Hiter|]. rewrite Hiter. exact Hget.
Qed.

(** ** C8: update does not validate *)

(** C8.  For an id that is a key of the store and an update request
    whose body decodes, the update handler checks neither name nor
    value: whatever they are, an empty name and a negative value
    included, the answer is 204 without a body and the entry at the id
    takes the decoded name and value.  The same holds for the request
    sent through the mux. *)
Theorem update_not_validated (s : MemoryStore) (r : Request) (id : Z)
    (item old : Item) :
  Atoi (id_segment r) = Some id ->
  json_decode (Body r) = Some item ->
  items s !! id = Some old ->
  exists s',
    updateItemHandler json_decode s r
    = ({| Status := 204; Content := NoBody |}, s')
    /\ items s' !! id
       = Some {| ID := id; Name := Name item; Value := Value item |}
    /\ (Method r = "PUT"%string ->
        String.prefix "/items/" (Path r) = true ->
        serve map_range json_decode s r
        = ({| Status := 204; Content := NoBody |}, s')).
Proof.
  intros Hid Hdec Hold.
  exists (snd (UpdateItem s id item)).
  assert (Hh : updateItemHandler json_decode s r
               = ({| Status := 204; Content := NoBody |},
                  snd (UpdateItem s id item))).
  { unfold updateItemHandler, UpdateItem. rewrite Hid, Hdec, Hold.
    reflexivity. }
  split; [exact Hh|]. split.
  - unfold UpdateItem. rewrite Hold. cbn [snd items].
    apply lookup_insert_eq.
  - intros Hm Hp. pose proof (clean_id_path r id Hp Hid) as Hc.
    rewrite serve_put by assumption. exact Hh.
Qed.

(** ** C10: negative id literals *)

(** C10 (as amended).  Take a store reached from [NewMemoryStore] with
    at most 2^63-1 adds, and a request whose path is ["/items/-"]
    followed by decimal digits of a value up to 2^63.  [Atoi] accepts
    the segment as the negated value, no item is stored under it, and
    so GET and DELETE are answered 404 with the not-found text, as is
    PUT when its body decodes; a PUT whose body does not decode is
    answered 400 "Invalid request body".  The store is left alone. *)
Theorem negative_id_literal (ops : list Op) (digits : string) (n : Z)
    (r : Request) :
  Z.of_nat (adds ops) <= max_int ->
  parse_unsigned digits = Some n ->
  n <= 9223372036854775808 ->
  Path r = ("/items/-" ++ digits)%string ->
  Atoi (id_segment r) = Some (- n)
  /\ items (run NewMemoryStore ops) !! (- n) = None
  /\ (Method r = "GET"%string \/ Method r = "DELETE"%string ->
      serve map_range json_decode (run NewMemoryStore ops) r
      = (http_Error (Error (NotFound (- n))) 404, run NewMemoryStore ops))
  /\ (Method r = "PUT"%string ->
      (forall item, json_decode (Body r) = Some item ->
         serve map_range json_decode (run NewMemoryStore ops) r
         = (http_Error (Error (NotFound (- n))) 404, run NewMemoryStore ops))
      /\ (json_decode (Body r) = None ->
          serve map_range json_decode (run NewMemoryStore ops) r
          = (http_Error "Invalid request body" 400, run NewMemoryStore ops))).
Proof.
  intros Hadds Hparse Hn Hpath.
  pose proof (parse_unsigned_nonneg _ _ Hparse) as H0.
  assert (Hseg : Atoi (id_segment r) = Some (- n)).
  { unfold id_segment. rewrite Hpath. apply Atoi_minus; assumption. }
  assert (Hnone : items (run NewMemoryStore ops) !! (- n) = None).
  { apply keys_positive; [exact Hadds|lia]. }
  assert (Hpre : String.prefix "/items/" (Path r) = true).
  { rewrite Hpath. reflexivity. }
  assert (Hone : Path r <> "/items/"%string).
  { rewrite Hpath. discriminate. }
  pose proof (clean_id_path r (- n) Hpre Hseg) as Hclean.
  split; [exact Hseg|]. split; [exact Hnone|]. split.
  - intros [Hm|Hm].
    + rewrite serve_get_one by assumption.
      unfold getItemHandler, GetItem. rewrite Hseg, Hnone. reflexivity.
    + rewrite serve_delete by assumption.
      unfold deleteItemHandler, DeleteItem. rewrite Hseg, Hnone. reflexivity.
  - intros Hm. split.
    + intros item Hdec. rewrite serve_put by assumption.
      unfold updateItemHandler, UpdateItem. rewrite Hseg, Hdec, Hnone.
      reflexivity.
    + intros Hdec. rewrite serve_put by assumption.
      unfold updateItemHandler. rewrite Hseg, Hdec. reflexivity.
Qed.

(** ** C9: listing *)

Lemma GetItems_loop_values visit : GetItems_loop visit = visit.*2.
Proof.
  unfold GetItems_loop.
  assert (H : forall acc : list Item,
            fold_left (fun acc kv => acc ++ [snd kv]) visit acc
            = acc ++ visit.*2).
  { induction visit as [|kv visit IH]; intros acc; simpl.
    - rewrite app_nil_r. reflexivity.
    - rewrite IH, <- app_assoc. reflexivity. }
  apply H.
Qed.

(** [range] visits every entry of the map once, in some order. *)
Hypothesis map_range_perm : forall m, map_range m ≡ₚ map_to_list m.

(** C9.  [GetItems] succeeds on every store, leaves it alone, and
    returns the values of the map's entries, one per key, in the order
    [range] visits them: a permutation of the stored items, of the
    length of the map's size, holding exactly the items found under
    some key.
    In a store whose items carry their keys no item occurs twice.
    After two adds on a new store the list holds the items with ids 1
    and 2, once each, in either order. *)
Theorem GetItems_lists_store (s : MemoryStore) :
  exists l,
    GetItems map_range s = (Ok l, s)
    /\ l ≡ₚ (map_to_list (items s)).*2
    /\ (forall item, In item l <-> exists k, items s !! k = Some item)
    /\ length l = size (items s)
    /\ (keyed_by_id s -> NoDup l)
    /\ (forall a b, s = run NewMemoryStore [OpAdd a; OpAdd b] ->
          l ≡ₚ [ {| ID := 1; Name := Name a; Value := Value a |};
                 {| ID := 2; Name := Name b; Value := Value b |} ]).
Proof.
  exists ((map_range (items s)).*2).
  assert (Hperm : (map_range (items s)).*2 ≡ₚ (map_to_list (items s)).*2).
  { rewrite map_range_perm. reflexivity. }
  split; [unfold GetItems; rewrite GetItems_loop_values; reflexivity|].
  split; [exact Hperm|].
  split; [|split; [|split]].
  - intros item. rewrite <- list_elem_of_In, Hperm, list_elem_of_fmap. split.
    + intros ([k it] & -> & Hin). apply elem_of_map_to_list in Hin.
      exists k. exact Hin.
    + intros (k & Hk). exists (k, item). split; [reflexivity|].
      apply elem_of_map_to_list. exact Hk.
  - rewrite Hperm, length_fmap. apply length_map_to_list.
  - intros Hkeyed. rewrite Hperm.
    apply NoDup_fmap_2_strong; [|apply NoDup_map_to_list].
    intros [k1 it1] [k2 it2] H1 H2 Heq. simpl in Heq. subst it2.
    apply elem_of_map_to_list in H1, H2.
    apply Hkeyed in H1, H2. congruence.
  - intros a b ->. rewrite Hperm.
    unfold run. cbn [fold_left step AddItem snd items nextID NewMemoryStore].
    change (wrap64 (1 + 1)) with 2.
    rewrite map_to_list_insert
      by (rewrite lookup_insert_ne by lia; apply lookup_empty).
    rewrite map_to_list_insert by apply lookup_empty.
    rewrite map_to_list_empty. cbn [fmap list_fmap snd].
    apply Permutation_swap.
Qed.

End Routing.

(** ** The theorems at concrete requests *)

Lemma create_rejected_witness :
  addItemHandler sample_decode NewMemoryStore
    {| Method := "POST"; Path := "/items/"; Body := "negative value" |}
  = (http_Error "Item value cannot be negative" 400, NewMemoryStore)
  /\ addItemHandler sample_decode NewMemoryStore
       {| Method := "POST"; Path := "/items/"; Body := "empty name" |}
     = (http_Error "Item name cannot be empty" 400, NewMemoryStore).
Proof.
  split.
  - destruct (create_rejected map_to_list sample_decode NewMemoryStore
                {| Method := "POST"; Path := "/items/";
                   Body := "negative value" |}
                {| ID := 0; Name := "X"; Value := -1 |})
      as (_ & H & _).
    + reflexivity.
    + right. simpl. lia.
    + apply H. discriminate.
  - destruct (create_rejected map_to_list sample_decode NewMemoryStore
                {| Method := "POST"; Path := "/items/"; Body := "empty name" |}
                {| ID := 0; Name := ""; Value := 5 |})
      as (H & _).
    + reflexivity.
    + left. reflexivity.
    + apply H. reflexivity.
Defined.

Lemma absent_id_not_found_witness :
  let s := {| items := {[ 1 := mkItem 1 "a" 0 ]}; nextID := 2 |} in
  GetItem s 5 = (Err (NotFound 5), s)
  /\ DeleteItem (snd (DeleteItem s 1)) 1
     = (Err (NotFound 1), snd (DeleteItem s 1)).
Proof.
  intros s. split.
  - destruct (absent_id_not_found sample_decode s 5) as (H & _).
    destruct H as (Hget & _); [vm_compute; reflexivity|exact Hget].
  - destruct (absent_id_not_found sample_decode s 1) as (_ & H).
    destruct H as (Hdel & _); [vm_compute; reflexivity|exact Hdel].
Defined.

Lemma update_not_validated_witness :
  exists s',
    updateItemHandler sample_decode
      {| items := {[ 1 := mkItem 1 "Test Item" 111 ]}; nextID := 2 |}
      {| Method := "PUT"; Path := "/items/1";
         Body := "empty name, negative value, id 7" |}
    = ({| Status := 204; Content := NoBody |}, s')
    /\ items s' !! 1 = Some {| ID := 1; Name := ""; Value := -1 |}.
Proof.
  destruct (update_not_validated map_to_list sample_decode
              {| items := {[ 1 := mkItem 1 "Test Item" 111 ]}; nextID := 2 |}
              {| Method := "PUT"; Path := "/items/1";
                 Body := "empty name, negative value, id 7" |}
              1 {| ID := 7; Name := ""; Value := -1 |} (mkItem 1 "Test Item" 111))
    as (s' & Hh & Hget & _).
  - vm_compute. reflexivity.
  - reflexivity.
  - vm_compute. reflexivity.
  - exists s'. split; [exact Hh|exact Hget].
Defined.

Lemma negative_id_literal_witness :
  serve map_to_list sample_decode
    (run NewMemoryStore [OpAdd probe; OpAdd probe])
    {| Method := "GET"; Path := "/items/-1"; Body := "" |}
  = (http_Error "item with id -1 not found" 404,
     run NewMemoryStore [OpAdd probe; OpAdd probe]).
Proof.
  destruct (negative_id_literal map_to_list sample_decode
              [OpAdd probe; OpAdd probe] "1" 1
              {| Method := "GET"; Path := "/items/-1"; Body := "" |})
    as (_ & _ & H & _).
  - vm_compute. discriminate.
  - reflexivity.
  - lia.
  - reflexivity.
  - apply H. left. reflexivity.
Defined.

(** C10 as stated fails in three ways.  A literal below the smallest
    [int] is refused by [Atoi]: 400.  A PUT whose body does not decode
    is answered 400 whatever the id.  And once the counter has wrapped,
    negative ids are assigned: the reachable store below answers 200 to
    GET /items/-9223372036854775808. *)
Lemma negative_id_literal_not_always_404 :
  serve map_to_list sample_decode NewMemoryStore
    {| Method := "GET"; Path := "/items/-9223372036854775809"; Body := "" |}
  = (http_Error "Invalid item ID" 400, NewMemoryStore)
  /\ serve map_to_list sample_decode NewMemoryStore
       {| Method := "PUT"; Path := "/items/-1"; Body := "" |}
     = (http_Error "Invalid request body" 400, NewMemoryStore)
  /\ reachable {| items := {[ min_int := mkItem min_int "a" 0 ]};
                  nextID := min_int + 1 |}
  /\ fst (serve map_to_list sample_decode
            {| items := {[ min_int := mkItem min_int "a" 0 ]};
               nextID := min_int + 1 |}
            {| Method := "GET"; Path := "/items/-9223372036854775808";
               Body := "" |})
     = {| Status := 200; Content := JsonItem (mkItem min_int "a" 0) |}.
Proof.
  split; [vm_compute; reflexivity|].
  split; [vm_compute; reflexivity|].
  split; [|vm_compute; reflexivity].
  destruct (churn max_int) as (ops & Hrun & _); [unfold max_int; lia|].
  change (wrap64 (1 + max_int)) with min_int in Hrun.
  exists (ops ++ [OpAdd probe]). rewrite run_app, Hrun. reflexivity.
Qed.

Lemma GetItems_lists_store_witness :
  exists l,
    GetItems map_to_list (run NewMemoryStore [OpAdd probe; OpAdd probe])
    = (Ok l, run NewMemoryStore [OpAdd probe; OpAdd probe])
    /\ l ≡ₚ [mkItem 1 "a" 0; mkItem 2 "a" 0].
Proof.
  destruct (GetItems_lists_store map_to_list (fun m => Permutation_refl _)
              (run NewMemoryStore [OpAdd probe; OpAdd probe]))
    as (l & Hget & _ & _ & _ & _ & H12).
  exists l. split; [exact Hget|].
  apply (H12 probe probe). reflexivity.
Defined.

(** ** Sanity checks *)

Example format_int_negative : format_int (-42) = "-42"%string.
Proof. reflexivity. Qed.

Example wrap64_past_max : wrap64 (max_int + 1) = min_int.
Proof. reflexivity. Qed.

Example Atoi_samples :
  Atoi "-12" = Some (-12) /\ Atoi "+7" = Some 7 /\ Atoi "+" = None
  /\ Atoi "" = None /\ Atoi "12a" = None
  /\ Atoi "9223372036854775808" = None
  /\ Atoi "-9223372036854775808" = Some min_int.
Proof. repeat split; reflexivity. Qed.

(** The session of the specification's scenario. *)
Example scenario :
  fst (serve_all map_to_list sample_decode NewMemoryStore
         [ {| Method := "POST"; Path := "/items/"; Body := "test item" |};
           {| Method := "GET"; Path := "/items/1"; Body := "" |};
           {| Method := "PUT"; Path := "/items/1"; Body := "updated" |};
           {| Method := "GET"; Path := "/items/1"; Body := "" |};
           {| Method := "DELETE"; Path := "/items/1"; Body := "" |};
           {| Method := "GET"; Path := "/items/1"; Body := "" |};
           {| Method := "POST"; Path := "/items/"; Body := "negative value" |};
           {| Method := "POST"; Path := "/items/"; Body := "test item" |};
           {| Method := "PATCH"; Path := "/items/2"; Body := "" |};
           {| Method := "GET"; Path := "/items"; Body := "" |} ])
  = [ {| Status := 201; Content := JsonId 1 |};
      {| Status := 200; Content := JsonItem (mkItem 1 "Test Item" 111) |};
      {| Status := 204; Content := NoBody |};
      {| Status := 200; Content := JsonItem (mkItem 1 "Updated" 20) |};
      {| Status := 204; Content := NoBody |};
      http_Error "item with id 1 not found" 404;
      http_Error "Item value cannot be negative" 400;
      {| Status := 201; Content := JsonId 2 |};
      http_Error "Method not allowed" 405;
      {| Status := 200; Content := JsonItems [mkItem 2 "Test Item" 111] |} ].
Proof. vm_compute. reflexivity. Qed.

(** * Further properties of the store *)

(** X1.  Before the counter wraps (fewer than 2^63-1 adds since
    [NewMemoryStore]) its value is not a key, so [AddItem] overwrites
    nothing: every entry stays as it was and the map grows by one.  In
    any store the entries under other keys than the counter's value are
    left as they were. *)
Theorem AddItem_keeps_entries (ops : list Op) (item : Item) :
  (forall s k, k <> nextID s ->
     items (snd (AddItem s item)) !! k = items s !! k)
  /\ (Z.of_nat (adds ops) < max_int ->
      items (run NewMemoryStore ops) !! nextID (run NewMemoryStore ops) = None
      /\ (forall k it, items (run NewMemoryStore ops) !! k = Some it ->
            items (snd (AddItem (run NewMemoryStore ops) item)) !! k = Some it)
      /\ size (items (snd (AddItem (run NewMemoryStore ops) item)))
         = S (size (items (run NewMemoryStore ops)))).
Proof.
  split.
  - intros s k Hk. cbn [AddItem snd items]. apply lookup_insert_ne. congruence.
  - intros Hn.
    assert (Hfree : items (run NewMemoryStore ops)
                      !! nextID (run NewMemoryStore ops) = None).
    { destruct (items (run NewMemoryStore ops)
                  !! nextID (run NewMemoryStore ops)) eqn:E; [|reflexivity].
      exfalso.
      assert (Hin : In (nextID (run NewMemoryStore ops))
                       (assigned NewMemoryStore ops)).
      { apply keys_were_assigned. rewrite E. eauto. }
      apply (assigned_below_counter _ _ Hn) in Hin. lia. }
    split; [exact Hfree|]. split.
    + intros k it Hk. cbn [AddItem snd items].
      rewrite lookup_insert_ne; [exact Hk|].
      intros Heq. rewrite <- Heq in Hk. congruence.
    + cbn [AddItem snd items]. apply map_size_insert_None. exact Hfree.
Qed.

Lemma AddItem_keeps_entries_witness :
  size (items (snd (AddItem (run NewMemoryStore [OpAdd probe; OpDelete 1])
                      probe)))
  = S (size (items (run NewMemoryStore [OpAdd probe; OpDelete 1]))).
Proof.
  destruct (AddItem_keeps_entries [OpAdd probe; OpDelete 1] probe) as (_ & H).
  destruct H as (_ & _ & Hsize); [vm_compute; reflexivity|exact Hsize].
Defined.

(** X2.  The store never holds more items than it started with plus the
    [AddItem] calls made since: updates and deletes add none. *)
Theorem size_bounded_by_adds (ops : list Op) (s : MemoryStore) :
  (size (items (run s ops)) <= size (items s) + adds ops)%nat.
Proof.
  revert s. induction ops as [|op ops IH]; intros s.
  - simpl. lia.
  - rewrite run_cons. specialize (IH (step s op)).
    assert (Hstep : (size (items (step s op)) + adds ops
                     <= size (items s) + adds (op :: ops))%nat);
      [|lia].
    destruct op as [item|id item|id]; cbn [step adds].
    + cbn [AddItem snd items]. rewrite map_size_insert.
      destruct (items s !! nextID s); simpl; lia.
    + unfold UpdateItem. destruct (items s !! id) eqn:E; cbn [snd items]; [|lia].
      rewrite map_size_insert_Some by (rewrite E; eauto). lia.
    + unfold DeleteItem. destruct (items s !! id) eqn:E; cbn [snd items]; [|lia].
      rewrite map_size_delete. rewrite E. simpl. lia.
Qed.

(** X3.  Two updates of the same key, one after the other: both
    succeed and the store is the one the second update alone would have
    left.  The last writer wins. *)
Theorem UpdateItem_last_wins (s : MemoryStore) (id : Z) (old a b : Item) :
  items s !! id = Some old ->
  fst (UpdateItem s id a) = Ok tt
  /\ UpdateItem (snd (UpdateItem s id a)) id b = UpdateItem s id b.
Proof.
  intros Hold. unfold UpdateItem. rewrite Hold. cbn [fst snd items nextID].
  rewrite lookup_insert_eq, insert_insert_eq. split; reflexivity.
Qed.

Lemma UpdateItem_last_wins_witness :
  UpdateItem
    (snd (UpdateItem {| items := {[ 1 := mkItem 1 "a" 0 ]}; nextID := 2 |}
            1 (mkItem 0 "b" 1)))
    1 (mkItem 0 "c" 2)
  = UpdateItem {| items := {[ 1 := mkItem 1 "a" 0 ]}; nextID := 2 |}
      1 (mkItem 0 "c" 2).
Proof.
  apply (UpdateItem_last_wins
           {| items := {[ 1 := mkItem 1 "a" 0 ]}; nextID := 2 |}
           1 (mkItem 1 "a" 0)).
  vm_compute. reflexivity.
Defined.

(** X4.  [UpdateItem] never creates or removes an entry: whether it
    succeeds or fails, the store has the same keys, the same number of
    items and the same counter afterwards. *)
Theorem UpdateItem_keeps_keys (s : MemoryStore) (id : Z) (item : Item) :
  (forall k, is_Some (items (snd (UpdateItem s id item)) !! k)
             <-> is_Some (items s !! k))
  /\ size (items (snd (UpdateItem s id item))) = size (items s)
  /\ nextID (snd (UpdateItem s id item)) = nextID s.
Proof.
  unfold UpdateItem. destruct (items s !! id) eqn:E; cbn [snd items nextID].
  - split; [|split; [|reflexivity]].
    + intros k. rewrite lookup_insert. destruct (decide (id = k)) as [<-|].
      * rewrite E. split; eauto.
      * reflexivity.
    + apply map_size_insert_Some. rewrite E. eauto.
  - split; [reflexivity|]. split; reflexivity.
Qed.

(** X5.  Deleting a key that is there succeeds and removes that entry
    only: the key is gone, every other entry and the counter are as
    before, and the map has one item fewer. *)
Theorem DeleteItem_present (s : MemoryStore) (id : Z) (old : Item) :
  items s !! id = Some old ->
  exists s',
    DeleteItem s id = (Ok tt, s')
    /\ items s' !! id = None
    /\ (forall k, k <> id -> items s' !! k = items s !! k)
    /\ nextID s' = nextID s
    /\ size (items s) = S (size (items s')).
Proof.
  intros Hold. unfold DeleteItem. rewrite Hold.
  eexists. split; [reflexivity|]. cbn [items nextID].
  split; [apply lookup_delete_eq|].
  split; [intros k Hk; apply lookup_delete_ne; congruence|].
  split; [reflexivity|].
  rewrite map_size_delete, Hold.
  assert (Hpos : size (items s) <> 0%nat).
  { intros H0. apply map_size_empty_inv in H0. rewrite H0 in Hold.
    rewrite lookup_empty in Hold. discriminate. }
  simpl. lia.
Qed.

Lemma DeleteItem_present_witness :
  exists s',
    DeleteItem {| items := {[ 1 := mkItem 1 "a" 0 ]}; nextID := 2 |} 1
    = (Ok tt, s')
    /\ items s' !! 1 = None.
Proof.
  destruct (DeleteItem_present
              {| items := {[ 1 := mkItem 1 "a" 0 ]}; nextID := 2 |}
              1 (mkItem 1 "a" 0))
    as (s' & Hdel & Hgone & _).
  - vm_compute. reflexivity.
  - exists s'. split; [exact Hdel|exact Hgone].
Defined.

(** X6.  Adding an item and deleting it again gives the items back as
    they were, but not the id: the counter has moved on. *)
Theorem AddItem_then_DeleteItem (s : MemoryStore) (item : Item) :
  items s !! nextID s = None ->
  DeleteItem (snd (AddItem s item)) (nextID s)
  = (Ok tt, {| items := items s; nextID := wrap64 (nextID s + 1) |})
  /\ wrap64 (nextID s + 1) <> nextID s.
Proof.
  intros Hfree. split; [|apply wrap64_succ_neq].
  unfold DeleteItem. cbn [AddItem snd items nextID ID].
  rewrite lookup_insert_eq, delete_insert_eq, delete_id by exact Hfree.
  reflexivity.
Qed.

Lemma AddItem_then_DeleteItem_witness :
  DeleteItem (snd (AddItem NewMemoryStore probe)) 1
  = (Ok tt, {| items := ∅; nextID := 2 |}).
Proof.
  destruct (AddItem_then_DeleteItem NewMemoryStore probe) as (H & _).
  - vm_compute. reflexivity.
  - exact H.
Defined.

(** * Ids in paths *)

Lemma parse_digits_step c str acc k :
  is_digit c = true -> digit_val c = k ->
  parse_digits acc (String c str) = parse_digits (10 * acc + k) str.
Proof. intros Hc <-. simpl. rewrite Hc. reflexivity. Qed.

Ltac digit_step k :=
  rewrite (parse_digits_step _ _ _ k) by reflexivity.

(** Digits read after a positive accumulator: the Horner value. *)
Lemma parse_digits_of_uint_acc d : forall acc : positive,
  parse_digits (Z.pos acc) (NilEmpty.string_of_uint d)
  = Some (Z.pos (Pos.of_uint_acc d acc)).
Proof.
  induction d; intros acc; cbn [NilEmpty.string_of_uint Pos.of_uint_acc];
    [reflexivity|..].
  - digit_step 0. rewrite <- IHd. f_equal; lia.
  - digit_step 1. rewrite <- IHd. f_equal; lia.
  - digit_step 2. rewrite <- IHd. f_equal; lia.
  - digit_step 3. rewrite <- IHd. f_equal; lia.
  - digit_step 4. rewrite <- IHd. f_equal; lia.
  - digit_step 5. rewrite <- IHd. f_equal; lia.
  - digit_step 6. rewrite <- IHd. f_equal; lia.
  - digit_step 7. rewrite <- IHd. f_equal; lia.
  - digit_step 8. rewrite <- IHd. f_equal; lia.
  - digit_step 9. rewrite <- IHd. f_equal; lia.
Qed.

Lemma parse_digits_of_uint d :
  parse_digits 0 (NilEmpty.string_of_uint d) = Some (Z.of_N (Pos.of_uint d)).
Proof.
  induction d; cbn [NilEmpty.string_of_uint Pos.of_uint]; [reflexivity|..].
  - digit_step 0. exact IHd.
  - digit_step 1. apply (parse_digits_of_uint_acc d 1).
  - digit_step 2. apply (parse_digits_of_uint_acc d 2).
  - digit_step 3. apply (parse_digits_of_uint_acc d 3).
  - digit_step 4. apply (parse_digits_of_uint_acc d 4).
  - digit_step 5. apply (parse_digits_of_uint_acc d 5).
  - digit_step 6. apply (parse_digits_of_uint_acc d 6).
  - digit_step 7. apply (parse_digits_of_uint_acc d 7).
  - digit_step 8. apply (parse_digits_of_uint_acc d 8).
  - digit_step 9. apply (parse_digits_of_uint_acc d 9).
Qed.

Lemma string_of_uint_head d :
  d <> Decimal.Nil ->
  exists c rest,
    NilEmpty.string_of_uint d = String c rest /\ is_digit c = true.
Proof.
  destruct d; [congruence|..]; intros _; eexists; eexists;
    (split; [reflexivity|reflexivity]).
Qed.

Lemma parse_unsigned_positive p :
  parse_unsigned (NilEmpty.string_of_uint (Pos.to_uint p)) = Some (Z.pos p).
Proof.
  destruct (string_of_uint_head (Pos.to_uint p)) as (c & rest & Hs & _);
    [apply DecimalPos.Unsigned.to_uint_nonnil|].
  unfold parse_unsigned. rewrite Hs, <- Hs.
  rewrite parse_digits_of_uint, DecimalPos.Unsigned.of_to. reflexivity.
Qed.

(** The decimal form of an [int], as [%d] prints it, is read back by
    [Atoi] as the same [int]. *)
Lemma Atoi_format_int z : in_int z -> Atoi (format_int z) = Some z.
Proof.
  unfold in_int. intros Hz.
  assert (Hmin : min_int = -9223372036854775808) by reflexivity.
  assert (Hmax : max_int = 9223372036854775807) by reflexivity.
  destruct z as [|p|p]; cbn [format_int].
  - reflexivity.
  - destruct (string_of_uint_head (Pos.to_uint p)) as (c & rest & Hs & Hc);
      [apply DecimalPos.Unsigned.to_uint_nonnil|].
    pose proof (parse_unsigned_positive p) as Hp. rewrite Hs in *.
    unfold Atoi.
    assert (Hsign : Ascii.eqb c "-" || Ascii.eqb c "+" = false).
    { destruct (Ascii.eqb_spec c "-") as [->|]; [discriminate|].
      destruct (Ascii.eqb_spec c "+") as [->|]; [discriminate|]. reflexivity. }
    apply orb_false_elim in Hsign. destruct Hsign as [Hneg Hplus].
    rewrite Hneg, Hplus. cbn [orb]. rewrite Hp. cbv zeta.
    replace ((min_int <=? Z.pos p) && (Z.pos p <=? max_int)) with true;
      [reflexivity|].
    symmetry. apply andb_true_intro. split; apply Z.leb_le; lia.
  - change (Z.neg p) with (- Z.pos p). apply Atoi_minus.
    + apply parse_unsigned_positive.
    + lia.
Qed.

Lemma format_int_nonempty z : format_int z <> ""%string.
Proof.
  destruct z as [|p|p]; cbn [format_int]; [discriminate| |discriminate].
  destruct (string_of_uint_head (Pos.to_uint p)) as (c & rest & Hs & _);
    [apply DecimalPos.Unsigned.to_uint_nonnil|].
  rewrite Hs. discriminate.
Qed.

(** * Further properties of the handlers *)

Lemma id_segment_of_items_slash r :
  Path r = "/items/"%string -> Atoi (id_segment r) = None.
Proof. intros H. unfold id_segment. rewrite H. reflexivity. Qed.

Lemma below_items_append str :
  String.prefix "/items/" ("/items/" ++ str) = true.
Proof. destruct str; reflexivity. Qed.

Lemma in_int_nextID_run ops : in_int (nextID (run NewMemoryStore ops)).
Proof.
  rewrite nextID_run by apply in_int_new. apply wrap64_in_int.
Qed.

Ltac unfold_handlers :=
  unfold serve, itemsSubtree, getItemsHandler, getItemHandler,
    addItemHandler, updateItemHandler, deleteItemHandler, GetItems,
    GetItem, AddItem, UpdateItem, DeleteItem, http_Error,
    StatusOK, StatusCreated, StatusNoContent, StatusBadRequest,
    StatusNotFound, StatusMethodNotAllowed, StatusInternalServerError.

Section Handlers.

Context (map_range : gmap Z Item -> list (Z * Item)).
Context (json_decode : string -> option Item).

(** X7.  On a canonical path below ["/items/"], a GET for one item, a
    PUT or a DELETE whose id segment [Atoi] refuses (no digits, as in
    PUT /items/, a letter, a further segment, a value beyond the [int])
    is answered 400 "Invalid item ID" and the store is left alone.  For
    PUT the id is checked before the body is looked at, so this is the
    answer whatever the body. *)
Theorem invalid_id_segment (s : MemoryStore) (r : Request) :
  is_clean_path (Path r) = true ->
  String.prefix "/items/" (Path r) = true ->
  Atoi (id_segment r) = None ->
  (Method r = "GET"%string /\ Path r <> "/items/"%string)
  \/ Method r = "PUT"%string \/ Method r = "DELETE"%string ->
  serve map_range json_decode s r = (http_Error "Invalid item ID" 400, s).
Proof.
  intros Hc Hp Hid [[Hm Hone]|[Hm|Hm]].
  - rewrite serve_get_one by assumption.
    unfold getItemHandler. rewrite Hid. reflexivity.
  - rewrite serve_put by assumption.
    unfold updateItemHandler. rewrite Hid. reflexivity.
  - rewrite serve_delete by assumption.
    unfold deleteItemHandler. rewrite Hid. reflexivity.
Qed.

(** X8.  A POST on a canonical path below ["/items/"] whose body does
    not decode, and a PUT with an id [Atoi] accepts whose body does not
    decode, are answered 400 "Invalid request body" and the store is
    left alone, whether or not the id is a key. *)
Theorem undecodable_body (s : MemoryStore) (r : Request) :
  String.prefix "/items/" (Path r) = true ->
  json_decode (Body r) = None ->
  (Method r = "POST"%string /\ is_clean_path (Path r) = true)
  \/ (Method r = "PUT"%string /\ exists id, Atoi (id_segment r) = Some id) ->
  serve map_range json_decode s r = (http_Error "Invalid request body" 400, s).
Proof.
  intros Hp Hdec [[Hm Hc]|[Hm (id & Hid)]].
  - rewrite serve_post by assumption.
    unfold addItemHandler. rewrite Hdec. reflexivity.
  - pose proof (clean_id_path r id Hp Hid) as Hc.
    rewrite serve_put by assumption.
    unfold updateItemHandler. rewrite Hid, Hdec. reflexivity.
Qed.

(** X9.  A POST on a canonical path below ["/items/"], whatever follows
    in the path, whose body decodes to an item with a name and a value
    of at least 0 is answered 201 with the counter's value as the new
    id.  The store
    afterwards holds, under that id, the item with that id and the
    decoded name and value (an id in the body is dropped), and its
    counter has moved on. *)
Theorem create_accepted (s : MemoryStore) (r : Request) (item : Item) :
  is_clean_path (Path r) = true ->
  String.prefix "/items/" (Path r) = true ->
  Method r = "POST"%string ->
  json_decode (Body r) = Some item ->
  Name item <> ""%string ->
  0 <= Value item ->
  exists s',
    serve map_range json_decode s r
    = ({| Status := 201; Content := JsonId (nextID s) |}, s')
    /\ items s' !! nextID s
       = Some {| ID := nextID s; Name := Name item; Value := Value item |}
    /\ (forall k, k <> nextID s -> items s' !! k = items s !! k)
    /\ nextID s' = wrap64 (nextID s + 1).
Proof.
  intros Hc Hp Hm Hdec Hname Hval. exists (snd (AddItem s item)).
  split; [|split; [|split]].
  - rewrite serve_post by assumption. unfold addItemHandler.
    rewrite Hdec. apply String.eqb_neq in Hname. rewrite Hname.
    apply Z.ltb_ge in Hval. rewrite Hval. reflexivity.
  - cbn [AddItem snd items ID]. apply lookup_insert_eq.
  - intros k Hk. cbn [AddItem snd items]. apply lookup_insert_ne. congruence.
  - reflexivity.
Qed.

(** X10.  A GET below ["/items/"] whose id segment [Atoi] reads as a key
    of the store is answered 200 with the item stored under it; the
    store is left alone. *)
Theorem get_present (s : MemoryStore) (r : Request) (id : Z) (item : Item) :
  String.prefix "/items/" (Path r) = true ->
  Method r = "GET"%string ->
  Atoi (id_segment r) = Some id ->
  items s !! id = Some item ->
  serve map_range json_decode s r
  = ({| Status := 200; Content := JsonItem item |}, s).
Proof.
  intros Hp Hm Hid Hitem.
  assert (Hone : Path r <> "/items/"%string).
  { intros H. apply id_segment_of_items_slash in H. congruence. }
  pose proof (clean_id_path r id Hp Hid) as Hc.
  rewrite serve_get_one by assumption.
  unfold getItemHandler, GetItem. rewrite Hid, Hitem. reflexivity.
Qed.

(** X11.  A DELETE below ["/items/"] whose id segment [Atoi] reads as a
    key of the store is answered 204 without a body; afterwards that key
    is gone, and the other entries and the counter are as before. *)
Theorem delete_present (s : MemoryStore) (r : Request) (id : Z) (old : Item) :
  String.prefix "/items/" (Path r) = true ->
  Method r = "DELETE"%string ->
  Atoi (id_segment r) = Some id ->
  items s !! id = Some old ->
  exists s',
    serve map_range json_decode s r
    = ({| Status := 204; Content := NoBody |}, s')
    /\ items s' !! id = None
    /\ (forall k, k <> id -> items s' !! k = items s !! k)
    /\ nextID s' = nextID s.
Proof.
  intros Hp Hm Hid Hold. exists (snd (DeleteItem s id)).
  pose proof (clean_id_path r id Hp Hid) as Hc.
  split; [|split; [|split]].
  - rewrite serve_delete by assumption.
    unfold deleteItemHandler, DeleteItem. rewrite Hid, Hold. reflexivity.
  - unfold DeleteItem. rewrite Hold. cbn [snd items]. apply lookup_delete_eq.
  - intros k Hk. unfold DeleteItem. rewrite Hold. cbn [snd items].
    apply lookup_delete_ne. congruence.
  - apply nextID_DeleteItem.
Qed.

(** X12.  Whatever the request, the store changes only with an answer
    201 or 204: every other answer (200 and all the errors) comes with
    the store the request found.  A GET never changes the store. *)
Theorem store_changes_only_on_201_204 (s : MemoryStore) (r : Request) :
  (Status (fst (serve map_range json_decode s r)) <> 201 ->
   Status (fst (serve map_range json_decode s r)) <> 204 ->
   snd (serve map_range json_decode s r) = s)
  /\ (Method r = "GET"%string -> snd (serve map_range json_decode s r) = s).
Proof.
  split.
  - unfold_handlers. repeat case_match; simplify_eq; cbn; congruence.
  - intros Hm. unfold_handlers. rewrite Hm. cbn [String.eqb Ascii.eqb Bool.eqb].
    repeat case_match; simplify_eq; reflexivity.
Qed.


End Handlers.

Section Sessions.

Context (map_range : gmap Z Item -> list (Z * Item)).
Context (json_decode : string -> option Item).

(** X14.  Create, then get by the printed id.  On a store reached from
    [NewMemoryStore] by any operations, a POST on a canonical path below
    ["/items/"] with a valid body is answered 201 with the new id, and a
    GET for
    ["/items/"] followed by that id in decimal is then answered 200 with
    the item of that id and the posted name and value. *)
Theorem create_then_get (ops : list Op) (r : Request) (item : Item) :
  is_clean_path (Path r) = true ->
  String.prefix "/items/" (Path r) = true ->
  Method r = "POST"%string ->
  json_decode (Body r) = Some item ->
  Name item <> ""%string ->
  0 <= Value item ->
  fst (serve_all map_range json_decode (run NewMemoryStore ops)
         [ r;
           {| Method := "GET";
              Path := "/items/" ++ format_int (nextID (run NewMemoryStore ops));
              Body := "" |} ])
  = [ {| Status := 201;
         Content := JsonId (nextID (run NewMemoryStore ops)) |};
      {| Status := 200;
         Content := JsonItem {| ID := nextID (run NewMemoryStore ops);
                                Name := Name item; Value := Value item |} |} ].
Proof.
  intros Hc Hp Hm Hdec Hname Hval.
  set (s := run NewMemoryStore ops).
  assert (Hpost : serve map_range json_decode s r
                  = ({| Status := 201; Content := JsonId (nextID s) |},
                     snd (AddItem s item))).
  { rewrite serve_post by assumption. unfold addItemHandler.
    rewrite Hdec. apply String.eqb_neq in Hname. rewrite Hname.
    apply Z.ltb_ge in Hval. rewrite Hval. reflexivity. }
  cbn [serve_all]. rewrite Hpost.
  set (g := {| Method := "GET"; Path := "/items/" ++ format_int (nextID s);
               Body := "" |}).
  assert (Hseg : Atoi (id_segment g) = Some (nextID s)).
  { unfold id_segment, g. cbn [Path].
    change (string_drop (String.length "/items/")
              ("/items/" ++ format_int (nextID s)))
      with (format_int (nextID s)).
    apply Atoi_format_int, in_int_nextID_run. }
  assert (Hget : serve map_range json_decode (snd (AddItem s item)) g
                 = ({| Status := 200;
                       Content := JsonItem {| ID := nextID s;
                                              Name := Name item;
                                              Value := Value item |} |},
                    snd (AddItem s item))).
  { rewrite serve_get_one.
    - unfold getItemHandler, GetItem. rewrite Hseg.
      cbn [AddItem snd items ID]. rewrite lookup_insert_eq. reflexivity.
    - apply (clean_id_path g (nextID s)); [apply below_items_append|exact Hseg].
    - apply below_items_append.
    - intros H. apply id_segment_of_items_slash in H. congruence.
    - reflexivity. }
  rewrite Hget. reflexivity.
Qed.

(** X15.  Update, then get on the same path.  When the id segment reads
    as a key of the store and the body decodes, a PUT is answered 204
    and a GET on the same path is then answered 200 with the item that
    carries the key as its id and the name and value of the body. *)
Theorem update_then_get (s : MemoryStore) (r : Request) (id : Z)
    (item old : Item) :
  String.prefix "/items/" (Path r) = true ->
  Method r = "PUT"%string ->
  Atoi (id_segment r) = Some id ->
  json_decode (Body r) = Some item ->
  items s !! id = Some old ->
  fst (serve_all map_range json_decode s
         [ r; {| Method := "GET"; Path := Path r; Body := "" |} ])
  = [ {| Status := 204; Content := NoBody |};
      {| Status := 200;
         Content := JsonItem {| ID := id; Name := Name item;
                                Value := Value item |} |} ].
Proof.
  intros Hp Hm Hid Hdec Hold.
  pose proof (clean_id_path r id Hp Hid) as Hc.
  assert (Hput : serve map_range json_decode s r
                 = ({| Status := 204; Content := NoBody |},
                    snd (UpdateItem s id item))).
  { rewrite serve_put by assumption.
    unfold updateItemHandler, UpdateItem. rewrite Hid, Hdec, Hold.
    reflexivity. }
  cbn [serve_all]. rewrite Hput.
  set (g := {| Method := "GET"; Path := Path r; Body := "" |}).
  assert (Hget : serve map_range json_decode (snd (UpdateItem s id item)) g
                 = ({| Status := 200;
                       Content := JsonItem {| ID := id; Name := Name item;
                                              Value := Value item |} |},
                    snd (UpdateItem s id item))).
  { rewrite serve_get_one.
    - unfold getItemHandler, GetItem.
      change (id_segment g) with (id_segment r). rewrite Hid.
      unfold UpdateItem. rewrite Hold. cbn [snd items].
      rewrite lookup_insert_eq. reflexivity.
    - exact Hc.
    - exact Hp.
    - intros H. change (Path g) with (Path r) in H.
      apply id_segment_of_items_slash in H. congruence.
    - reflexivity. }
  rewrite Hget. reflexivity.
Qed.

(** X16.  Delete, then anything on the same path.  After a DELETE that
    is answered 204, a GET, a second DELETE and a PUT with a decodable
    body on the same path are all answered 404 with the not-found text,
    and none of them changes the store. *)
Theorem delete_then_not_found (s : MemoryStore) (r next : Request) (id : Z)
    (old : Item) :
  String.prefix "/items/" (Path r) = true ->
  Method r = "DELETE"%string ->
  Atoi (id_segment r) = Some id ->
  items s !! id = Some old ->
  Path next = Path r ->
  Method next = "GET"%string \/ Method next = "DELETE"%string
  \/ (Method next = "PUT"%string /\ exists item, json_decode (Body next) = Some item) ->
  serve_all map_range json_decode s [r; next]
  = ([ {| Status := 204; Content := NoBody |};
       http_Error (Error (NotFound id)) 404 ],
     snd (DeleteItem s id)).
Proof.
  intros Hp Hm Hid Hold Hpath Hnext.
  pose proof (clean_id_path r id Hp Hid) as Hc.
  assert (Hdel : serve map_range json_decode s r
                 = ({| Status := 204; Content := NoBody |},
                    snd (DeleteItem s id))).
  { rewrite serve_delete by assumption.
    unfold deleteItemHandler, DeleteItem. rewrite Hid, Hold. reflexivity. }
  assert (Hgone : items (snd (DeleteItem s id)) !! id = None).
  { unfold DeleteItem. rewrite Hold. cbn [snd items]. apply lookup_delete_eq. }
  assert (Hseg : Atoi (id_segment next) = Some id).
  { unfold id_segment. rewrite Hpath. exact Hid. }
  assert (Hp' : String.prefix "/items/" (Path next) = true).
  { rewrite Hpath. exact Hp. }
  assert (Hc' : is_clean_path (Path next) = true).
  { rewrite Hpath. exact Hc. }
  assert (Hone : Path next <> "/items/"%string).
  { intros H. apply id_segment_of_items_slash in H. congruence. }
  cbn [serve_all]. rewrite Hdel.
  assert (Hsecond : serve map_range json_decode (snd (DeleteItem s id)) next
                    = (http_Error (Error (NotFound id)) 404,
                       snd (DeleteItem s id))).
  { destruct Hnext as [Hn|[Hn|[Hn (item & Hdec)]]].
    - rewrite serve_get_one by assumption.
      unfold getItemHandler, GetItem. rewrite Hseg, Hgone. reflexivity.
    - rewrite serve_delete by assumption.
      unfold deleteItemHandler. unfold DeleteItem at 1.
      rewrite Hseg, Hgone. reflexivity.
    - rewrite serve_put by assumption.
      unfold updateItemHandler, UpdateItem. rewrite Hseg, Hdec, Hgone.
      reflexivity. }
  rewrite Hsecond. reflexivity.
Qed.

(** [range] visits every entry of the map once, in some order. *)
Hypothesis map_range_once : forall m, map_range m ≡ₚ map_to_list m.

(** X17.  A GET for ["/items/"] and any request for ["/items"] are
    answered 200 with a list that is a permutation of the stored items;
    the store is left alone.  On a store without items the list is
    empty. *)
Theorem list_through_mux (s : MemoryStore) (r : Request) :
  (Method r = "GET"%string /\ Path r = "/items/"%string)
  \/ Path r = "/items"%string ->
  exists l,
    serve map_range json_decode s r
    = ({| Status := 200; Content := JsonItems l |}, s)
    /\ l ≡ₚ (map_to_list (items s)).*2
    /\ (items s = ∅ -> l = []).
Proof.
  intros Hr. exists ((map_range (items s)).*2).
  assert (Hperm : (map_range (items s)).*2 ≡ₚ (map_to_list (items s)).*2).
  { rewrite map_range_once. reflexivity. }
  split; [|split; [exact Hperm|]].
  - unfold serve, itemsSubtree, getItemsHandler, GetItems.
    rewrite GetItems_loop_values.
    destruct Hr as [[Hm Hp]|Hp]; rewrite Hp; [rewrite Hm|]; reflexivity.
  - intros Hempty. rewrite Hempty, map_to_list_empty in Hperm.
    apply Permutation_nil_r in Hperm. rewrite Hempty. exact Hperm.
Qed.

End Sessions.

(** ** The further properties at concrete requests *)

Lemma invalid_id_segment_witness :
  serve map_to_list sample_decode one_item
    {| Method := "PUT"; Path := "/items/"; Body := "" |}
  = (http_Error "Invalid item ID" 400, one_item)
  /\ serve map_to_list sample_decode one_item
       {| Method := "GET"; Path := "/items/abc"; Body := "" |}
     = (http_Error "Invalid item ID" 400, one_item).
Proof.
  split.
  - apply (invalid_id_segment map_to_list sample_decode one_item
             {| Method := "PUT"; Path := "/items/"; Body := "" |}).
    + reflexivity.
    + reflexivity.
    + reflexivity.
    + right. left. reflexivity.
  - apply (invalid_id_segment map_to_list sample_decode one_item
             {| Method := "GET"; Path := "/items/abc"; Body := "" |}).
    + reflexivity.
    + reflexivity.
    + reflexivity.
    + left. split; [reflexivity|discriminate].
Defined.

Lemma undecodable_body_witness :
  serve map_to_list sample_decode one_item
    {| Method := "PUT"; Path := "/items/9"; Body := "" |}
  = (http_Error "Invalid request body" 400, one_item).
Proof.
  apply (undecodable_body map_to_list sample_decode one_item
           {| Method := "PUT"; Path := "/items/9"; Body := "" |}).
  - reflexivity.
  - reflexivity.
  - right. split; [reflexivity|]. exists 9. reflexivity.
Defined.

Lemma create_accepted_witness :
  exists s',
    serve map_to_list sample_decode one_item
      {| Method := "POST"; Path := "/items/5"; Body := "test item" |}
    = ({| Status := 201; Content := JsonId 2 |}, s')
    /\ items s' !! 2 = Some (mkItem 2 "Test Item" 111).
Proof.
  destruct (create_accepted map_to_list sample_decode one_item
              {| Method := "POST"; Path := "/items/5"; Body := "test item" |}
              (mkItem 0 "Test Item" 111))
    as (s' & Hpost & Hget & _).
  - reflexivity.
  - reflexivity.
  - reflexivity.
  - reflexivity.
  - discriminate.
  - simpl. lia.
  - exists s'. split; [exact Hpost|exact Hget].
Defined.

Lemma get_present_witness :
  serve map_to_list sample_decode one_item
    {| Method := "GET"; Path := "/items/1"; Body := "" |}
  = ({| Status := 200; Content := JsonItem (mkItem 1 "Test Item" 111) |},
     one_item).
Proof.
  apply (get_present map_to_list sample_decode one_item
           {| Method := "GET"; Path := "/items/1"; Body := "" |} 1).
  - reflexivity.
  - reflexivity.
  - reflexivity.
  - vm_compute. reflexivity.
Defined.

Lemma delete_present_witness :
  exists s',
    serve map_to_list sample_decode one_item
      {| Method := "DELETE"; Path := "/items/1"; Body := "" |}
    = ({| Status := 204; Content := NoBody |}, s')
    /\ items s' !! 1 = None.
Proof.
  destruct (delete_present map_to_list sample_decode one_item
              {| Method := "DELETE"; Path := "/items/1"; Body := "" |}
              1 (mkItem 1 "Test Item" 111))
    as (s' & Hdel & Hgone & _).
  - reflexivity.
  - reflexivity.
  - reflexivity.
  - vm_compute. reflexivity.
  - exists s'. split; [exact Hdel|exact Hgone].
Defined.

Lemma store_changes_only_on_201_204_witness :
  snd (serve map_to_list sample_decode one_item
         {| Method := "POST"; Path := "/items/"; Body := "empty name" |})
  = one_item.
Proof.
  destruct (store_changes_only_on_201_204 map_to_list sample_decode one_item
              {| Method := "POST"; Path := "/items/"; Body := "empty name" |})
    as (H & _).
  apply H; vm_compute; discriminate.
Defined.

Lemma create_then_get_witness :
  fst (serve_all map_to_list sample_decode
         (run NewMemoryStore [OpAdd probe; OpDelete 1])
         [ {| Method := "POST"; Path := "/items/"; Body := "test item" |};
           {| Method := "GET"; Path := "/items/2"; Body := "" |} ])
  = [ {| Status := 201; Content := JsonId 2 |};
      {| Status := 200; Content := JsonItem (mkItem 2 "Test Item" 111) |} ].
Proof.
  apply (create_then_get map_to_list sample_decode
           [OpAdd probe; OpDelete 1]
           {| Method := "POST"; Path := "/items/"; Body := "test item" |}
           (mkItem 0 "Test Item" 111)).
  - reflexivity.
  - reflexivity.
  - reflexivity.
  - reflexivity.
  - discriminate.
  - simpl. lia.
Defined.

Lemma update_then_get_witness :
  fst (serve_all map_to_list sample_decode one_item
         [ {| Method := "PUT"; Path := "/items/1"; Body := "updated" |};
           {| Method := "GET"; Path := "/items/1"; Body := "" |} ])
  = [ {| Status := 204; Content := NoBody |};
      {| Status := 200; Content := JsonItem (mkItem 1 "Updated" 20) |} ].
Proof.
  apply (update_then_get map_to_list sample_decode one_item
           {| Method := "PUT"; Path := "/items/1"; Body := "updated" |}
           1 (mkItem 0 "Updated" 20) (mkItem 1 "Test Item" 111)).
  - reflexivity.
  - reflexivity.
  - reflexivity.
  - reflexivity.
  - vm_compute. reflexivity.
Defined.

Lemma delete_then_not_found_witness :
  fst (serve_all map_to_list sample_decode one_item
         [ {| Method := "DELETE"; Path := "/items/1"; Body := "" |};
           {| Method := "DELETE"; Path := "/items/1"; Body := "" |} ])
  = [ {| Status := 204; Content := NoBody |};
      http_Error "item with id 1 not found" 404 ].
Proof.
  rewrite (delete_then_not_found map_to_list sample_decode one_item
             {| Method := "DELETE"; Path := "/items/1"; Body := "" |}
             {| Method := "DELETE"; Path := "/items/1"; Body := "" |}
             1 (mkItem 1 "Test Item" 111)).
  - reflexivity.
  - reflexivity.
  - reflexivity.
  - reflexivity.
  - vm_compute. reflexivity.
  - reflexivity.
  - right. left. reflexivity.
Defined.

Lemma list_through_mux_witness :
  exists l,
    serve map_to_list sample_decode one_item
      {| Method := "GET"; Path := "/items/"; Body := "" |}
    = ({| Status := 200; Content := JsonItems l |}, one_item)
    /\ l ≡ₚ (map_to_list (items one_item)).*2.
Proof.
  destruct (list_through_mux map_to_list sample_decode
              (fun m => Permutation_refl _) one_item
              {| Method := "GET"; Path := "/items/"; Body := "" |})
    as (l & Hget & Hperm & _).
  - left. split; reflexivity.
  - exists l. split; [exact Hget|exact Hperm].
Defined.

(** ** Sanity checks of the mux *)

Example is_clean_path_samples :
  is_clean_path "/items" = true /\ is_clean_path "/items/" = true
  /\ is_clean_path "/items/12" = true /\ is_clean_path "/items/1/2" = true
  /\ is_clean_path "/items/..." = true /\ is_clean_path "/" = true
  /\ is_clean_path "/items//1" = false /\ is_clean_path "/items/./1" = false
  /\ is_clean_path "/items/../x" = false /\ is_clean_path "/items/." = false
  /\ is_clean_path "/items//" = false /\ is_clean_path "" = false
  /\ is_clean_path "items" = false.
Proof. repeat split; reflexivity. Qed.

Example redirects :
  fst (serve_all map_to_list sample_decode one_item
         [ {| Method := "GET"; Path := "/items//1"; Body := "" |};
           {| Method := "POST"; Path := "/items//x"; Body := "test item" |};
           {| Method := "POST"; Path := "/items/../x"; Body := "empty name" |};
           {| Method := "GET"; Path := "/foo//bar"; Body := "" |};
           {| Method := "GET"; Path := "/foo/bar"; Body := "" |};
           {| Method := "GET"; Path := "/items/1/2"; Body := "" |} ])
  = [ {| Status := 301; Content := Moved |};
      {| Status := 301; Content := Moved |};
      {| Status := 301; Content := Moved |};
      {| Status := 301; Content := Moved |};
      http_Error "404 page not found" 404;
      http_Error "Invalid item ID" 400 ].
Proof. vm_compute. reflexivity. Qed.
